(** * FINAgent: the workflow graph builder, the memory lookup and the Groq
    client factory, embedded in Rocq.

    Sources embedded here:
    - [Langgraph/GraphState.py]  ([GraphSetup.setup_graph])
    - [agents/utils/loader.py]   ([import_from_string])
    - [memory/enhanced_memory.py] ([get_memories], [semantic_search_async],
      [get_relevant_memories])
    - [NeonDB/neon.py]           ([initialize], [semantic_search_memories])
    - [LLMs/groq/groq.py]        ([get_groq_llm])
    - [scripts/validate_registries.py] ([validate_dotted_paths], [main])

    Python exceptions are values of [exn]; a function that may raise returns
    a [result].  Python dictionaries whose iteration order is used are
    association lists with Python's insertion-order update; dictionaries
    that are only looked up are [gmap]s. *)

From Stdlib Require Import ZArith Lia Ascii String Sorted.
From stdpp Require Import base strings list gmap pretty.

Open Scope string_scope.
Open Scope list_scope.

(** ** Exceptions and results *)

Inductive exn : Type :=
  | ValueError (msg : string)
  | ImportError (msg : string)
  | ModuleNotFoundError (msg : string)
  | KeyError (key : string)
  | IndexError (msg : string)
  | AttributeError (msg : string)
  | RuntimeError (msg : string)
  | TypeError (msg : string).


Inductive result (A : Type) : Type :=
  | Ok (a : A)
  | Raise (e : exn).
Arguments Ok {A} a.
Arguments Raise {A} e.

Definition bind {A B : Type} (r : result A) (k : A -> result B) : result B :=
  match r with
  | Ok a => k a
  | Raise e => Raise e
  end.

Declare Scope py_scope.
Delimit Scope py_scope with py.
Notation "'let!' x ':=' r 'in' k" := (bind r (fun x => k))
  (at level 10, x name, r at level 100, k at level 200,
   format "'[v' 'let!'  x  ':='  r  'in' '/' k ']'") : py_scope.
Open Scope py_scope.

Definition is_ok {A : Type} (r : result A) : Prop := exists a, r = Ok a.
Definition raises {A : Type} (r : result A) : Prop := exists e, r = Raise e.

(** ** [LLMs/groq/groq.py] *)

Module Groq.

(** The arguments [ChatGroq(...)] would be called with. *)
Record client (temp : Type) : Type := ChatGroq_call {
  c_model_name : string;
  c_temperature : temp;
  c_api_key : string;
  c_timeout : Z
}.
Arguments ChatGroq_call {temp}.

(** Python truthiness of a string. *)
Definition truthy (s : string) : bool :=
  match s with
  | EmptyString => false
  | String _ _ => true
  end.

(** [chat_groq] is the module-level name [ChatGroq]: [true] when the
    import of [langchain_groq] succeeded, [false] when the [except]
    branch bound it to [None].  [environ] is [os.environ]. *)
Definition get_groq_llm {temp : Type} (chat_groq : bool)
    (environ : gmap string string)
    (model_name : string) (temperature : temp)
    (api_key : option string) (timeout : Z) : result (client temp) :=
  if negb chat_groq then
    Raise (ImportError
      "langchain_groq is not installed. Install with: pip install langchain-groq")
  else
    let resolved_api_key := "" in
    if negb (truthy resolved_api_key) then
      Raise (ValueError
        "GROQ_API_KEY is not set. Provide api_key or set environment variable.")
    else
      Ok (ChatGroq_call model_name temperature resolved_api_key timeout).

End Groq.

(** ** Strings: the ASCII part of [str.capitalize] and the node names *)

Definition is_lower_ascii (c : ascii) : bool :=
  let n := nat_of_ascii c in (97 <=? n)%nat && (n <=? 122)%nat.
Definition is_upper_ascii (c : ascii) : bool :=
  let n := nat_of_ascii c in (65 <=? n)%nat && (n <=? 90)%nat.
Definition upper_ascii (c : ascii) : ascii :=
  if is_lower_ascii c then ascii_of_nat (nat_of_ascii c - 32) else c.
Definition lower_ascii (c : ascii) : ascii :=
  if is_upper_ascii c then ascii_of_nat (nat_of_ascii c + 32) else c.

Fixpoint lower (s : string) : string :=
  match s with
  | EmptyString => EmptyString
  | String c s' => String (lower_ascii c) (lower s')
  end.

(** [str.capitalize()]: first character upper-cased, the rest lower-cased
    (bytes outside the ASCII letters are left as they are). *)
Definition capitalize (s : string) : string :=
  match s with
  | EmptyString => EmptyString
  | String c s' => String (upper_ascii c) (lower s')
  end.

(** f"{analyst_type.capitalize()} Analyst" *)
Definition analyst_name (analyst_type : string) : string :=
  capitalize analyst_type +:+ " Analyst".
(** f"Msg Clear {analyst_type.capitalize()}" *)
Definition clear_name (analyst_type : string) : string :=
  "Msg Clear " +:+ capitalize analyst_type.
(** f"tools_{analyst_type}" *)
Definition tools_name (analyst_type : string) : string :=
  "tools_" +:+ analyst_type.

(** ** Python dictionaries that are iterated: insertion-ordered *)

Fixpoint dict_set {V : Type} (k : string) (v : V) (d : list (string * V))
  : list (string * V) :=
  match d with
  | [] => [(k, v)]
  | (k', v') :: d' =>
      if decide (k = k') then (k, v) :: d' else (k', v') :: dict_set k v d'
  end.

Fixpoint dict_get {V : Type} (k : string) (d : list (string * V)) : option V :=
  match d with
  | [] => None
  | (k', v') :: d' => if decide (k = k') then Some v' else dict_get k d'
  end.

Definition dict_keys {V : Type} (d : list (string * V)) : list string := d.*1.

(** [d[k]] *)
Definition dict_item {V : Type} (k : string) (d : list (string * V)) : result V :=
  match dict_get k d with
  | Some v => Ok v
  | None => Raise (KeyError k)
  end.

(** [m[k]] on a dictionary that is only looked up. *)
Definition map_item {V : Type} (k : string) (m : gmap string V) : result V :=
  match m !! k with
  | Some v => Ok v
  | None => Raise (KeyError k)
  end.

(** ** [agents/utils/loader.py] *)

(** [mods] below is what [importlib] can see: each importable module with
    the names it defines. *)

(** ["." in s] *)
Fixpoint contains_dot (s : string) : bool :=
  match s with
  | EmptyString => false
  | String c s' => if decide (c = "."%char) then true else contains_dot s'
  end.

(** [s.rsplit(".", 1)] for a string that holds a dot. *)
Fixpoint rsplit_dot (s : string) : option (string * string) :=
  match s with
  | EmptyString => None
  | String c s' =>
      match rsplit_dot s' with
      | Some (m, a) => Some (String c m, a)
      | None => if decide (c = "."%char) then Some (EmptyString, s') else None
      end
  end.

(** The object [import_from_string] returns is identified by its dotted
    path. *)
Definition import_from_string (mods : gmap string (list string)) (dotted_path : string)
  : result string :=
  if negb (contains_dot dotted_path) then
    Raise (ImportError ("Invalid import path: " +:+ dotted_path))
  else
    match rsplit_dot dotted_path with
    | None => Raise (ImportError ("Invalid import path: " +:+ dotted_path))
    | Some (module_path, attr_name) =>
        if decide (module_path = EmptyString) then
          Raise (ValueError "Empty module name")
        else
          match mods !! module_path with
          | None =>
              Raise (ModuleNotFoundError
                       ("No module named '" +:+ module_path +:+ "'"))
          | Some names =>
              if decide (attr_name ∈ names) then Ok dotted_path
              else
                Raise (ImportError
                         ("Module '" +:+ module_path +:+ "' has no attribute '"
                          +:+ attr_name +:+ "'"))
          end
    end.

(** ** [agents/registry.json], as [setup_graph] reads it

    The file is data of the repository; its content is a parameter.  The
    sections read with [.get(name, {})] are maps (empty when absent), the
    ones read with [[name]] are optional. *)
Record registry : Type := Registry {
  reg_utilities : gmap string string;
  reg_analysts : gmap string string;
  reg_researchers : option (gmap string string);
  reg_managers : option (gmap string string);
  reg_trader : option string;
  reg_risk_roles : option (gmap string string)
}.

(** [agents_config[section][key]] *)
Definition section_item (section : string)
    (sec : option (gmap string string)) (key : string) : result string :=
  match sec with
  | None => Raise (KeyError section)
  | Some m => map_item key m
  end.

(** ** The conditional logic

    [Langgraph/ConditionalLogic.py] is not among the sources. *)

(** Modelled from the spec: the state a predicate reads (section 3): the
    message log, the shared bull/bear turn counter, and the shared risk
    turn counter with the role that spoke last. *)
Record Message : Type := Msg {
  msg_content : string;
  msg_tool_calls : list string
}.

Inductive risk_role : Type := Risky | Safe | Neutral.

Record AgentState : Type := State {
  st_messages : list Message;
  st_debate_count : Z;
  st_risk_count : Z;
  st_latest_speaker : risk_role
}.

(** Modelled from the spec: the three predicate families of section 4.2,
    one tool-continue predicate [should_continue_<stage>] per stage
    identifier. *)
Inductive predicate : Type :=
  | should_continue_stage (stage : string)
  | should_continue_debate
  | should_continue_risk_analysis.

Record ConditionalLogic : Type := Logic {
  max_debate_rounds : Z;
  max_risk_discuss_rounds : Z
}.

(** Modelled from the spec: the stage identifiers (section 3; the four
    the docstring of [setup_graph] lists). *)
Definition stage_identifiers : list string :=
  ["market"; "social"; "news"; "fundamentals"].

(** Modelled from the spec: [getattr(conditional_logic, name)] finds the
    methods of the three families and nothing else under the prefix
    [should_continue_]. *)
Definition getattr_logic (name : string) : result predicate :=
  if decide (name = "should_continue_debate") then Ok should_continue_debate
  else if decide (name = "should_continue_risk_analysis") then
    Ok should_continue_risk_analysis
  else
    match list_find (fun k => name = "should_continue_" +:+ k) stage_identifiers with
    | Some (_, k) => Ok (should_continue_stage k)
    | None =>
        Raise (AttributeError
                 ("'ConditionalLogic' object has no attribute '" +:+ name +:+ "'"))
    end.

(** The [__name__] of a predicate, under which LangGraph files a branch. *)
Definition predicate_name (p : predicate) : string :=
  match p with
  | should_continue_stage k => "should_continue_" +:+ k
  | should_continue_debate => "should_continue_debate"
  | should_continue_risk_analysis => "should_continue_risk_analysis"
  end.

(** Modelled from the spec: whether the latest output (the last message
    of the log) declares pending tool calls. *)
Definition pending_tool_calls (st : AgentState) : bool :=
  match last (st_messages st) with
  | Some m =>
      match msg_tool_calls m with
      | [] => false
      | _ :: _ => true
      end
  | None => false
  end.

(** Modelled from the spec: tool-continue(output) returns the stage's tool
    node if the output declares pending tool calls, else its
    message-clearing node. *)
Definition tool_continue (stage : string) (st : AgentState) : string :=
  if pending_tool_calls st then tools_name stage else clear_name stage.

(** Modelled from the spec: debate-continue(state, maxDebateRounds). *)
Definition debate_continue (logic : ConditionalLogic) (st : AgentState) : string :=
  if decide (max_debate_rounds logic = 0)%Z then "Research Manager"
  else if decide (st_debate_count st < 2 * max_debate_rounds logic)%Z then
    if Z.odd (st_debate_count st) then "Bear Researcher" else "Bull Researcher"
  else "Research Manager".

(** Modelled from the spec: risk-continue(state, maxRiskRounds). *)
Definition risk_continue (logic : ConditionalLogic) (st : AgentState) : string :=
  if decide (max_risk_discuss_rounds logic = 0)%Z then "Risk Judge"
  else if decide (st_risk_count st < 3 * max_risk_discuss_rounds logic)%Z then
    match st_latest_speaker st with
    | Risky => "Safe Analyst"
    | Safe => "Neutral Analyst"
    | Neutral => "Risky Analyst"
    end
  else "Risk Judge".

Definition eval_predicate (logic : ConditionalLogic) (p : predicate)
    (st : AgentState) : string :=
  match p with
  | should_continue_stage k => tool_continue k st
  | should_continue_debate => debate_continue logic st
  | should_continue_risk_analysis => risk_continue logic st
  end.

(** ** The LangGraph builder, as far as [setup_graph] drives it

    [StateGraph] keeps a dictionary of nodes, a set of edges and, per
    source node, a dictionary of named branches.  The calls below record
    what the builder records and raise where the builder raises:
    [add_node] on a name that holds one of the builder's separator
    characters, on an action that is [None], and on a name that is taken or
    reserved; [add_edge] on an edge out of [END] or into [START];
    [add_conditional_edges] on a branch name that the source already has;
    and [compile] (through [validate]) on an edge or branch that starts or
    ends at a name that is no node, or when nothing leaves [START].
    [add_node] also turns down a name that is a key of the state schema;
    the schema, [AgentState], is not among these sources and that check
    is not represented. *)

Definition START : string := "__start__".
Definition END : string := "__end__".

(** What a node is bound to: the result of calling a factory from the
    registry, or the entry of [self.tool_nodes] (if any). *)
Inductive handler : Type :=
  | Built (factory : string) (args : list string)
  | FromToolNodes (tool_node : option string).

Record Branch : Type := MkBranch {
  br_path : predicate;
  br_ends : list (string * string)
}.

Record StateGraph : Type := Graph {
  nodes : list (string * handler);
  edges : list (string * string);
  branches : list ((string * string) * Branch)
}.

Definition new_graph : StateGraph := Graph [] [] [].

Definition node_names (g : StateGraph) : list string := dict_keys (nodes g).

(** [character in node] *)
Fixpoint contains_char (character : ascii) (node : string) : bool :=
  match node with
  | EmptyString => false
  | String c rest => Ascii.eqb c character || contains_char character rest
  end.

(** The builder's separators [NS_SEP] and [NS_END]. *)
Definition NS_SEP : ascii := "|"%char.
Definition NS_END : ascii := ":"%char.

(** [action is None]: a factory call yields a node function; an entry of
    [self.tool_nodes] read with [.get] is [None] when the key is missing. *)
Definition is_none (action : handler) : bool :=
  match action with
  | FromToolNodes None => true
  | _ => false
  end.

Definition add_node (node : string) (action : handler) (g : StateGraph)
  : result StateGraph :=
  if contains_char NS_SEP node then
    Raise (ValueError
      "'|' is a reserved character and is not allowed in the node names.")
  else if contains_char NS_END node then
    Raise (ValueError
      "':' is a reserved character and is not allowed in the node names.")
  else if is_none action then
    Raise (RuntimeError
      "Expected a function or Runnable action in add_node. Received None.")
  else if decide (node ∈ node_names g) then
    Raise (ValueError ("Node `" +:+ node +:+ "` already present."))
  else if decide (node = END \/ node = START) then
    Raise (ValueError ("Node `" +:+ node +:+ "` is reserved."))
  else Ok (Graph (nodes g ++ [(node, action)]) (edges g) (branches g)).

(** [set.add] *)
Definition set_add {A : Type} `{EqDecision A} (x : A) (s : list A) : list A :=
  if decide (x ∈ s) then s else s ++ [x].

Definition add_edge (start_key end_key : string) (g : StateGraph)
  : result StateGraph :=
  if decide (start_key = END) then Raise (ValueError "END cannot be a start node")
  else if decide (end_key = START) then
    Raise (ValueError "START cannot be an end node")
  else Ok (Graph (nodes g) (set_add (start_key, end_key) (edges g)) (branches g)).

(** A [path_map] given as a list [l] stands for [{name: name for name in l}]. *)
Definition path_map_of_list (l : list string) : list (string * string) :=
  foldl (fun d name => dict_set name name d) [] l.

Definition add_conditional_edges (source : string) (path : predicate)
    (path_map : list (string * string)) (g : StateGraph) : result StateGraph :=
  let name := predicate_name path in
  if decide ((source, name) ∈ (branches g).*1) then
    Raise (ValueError ("Branch with name `" +:+ name
                       +:+ "` already exists for node `" +:+ source +:+ "`"))
  else
    Ok (Graph (nodes g) (edges g)
              (branches g ++ [((source, name), MkBranch path path_map)])).

Definition all_sources (g : StateGraph) : list string :=
  (edges g).*1 ++ (branches g).*1.*1.

Definition all_targets (g : StateGraph) : list string :=
  (edges g).*2 ++ flat_map (fun b => (br_ends b.2).*2) (branches g).

Definition validate (g : StateGraph) : result StateGraph :=
  match list_find (fun s => ~ (s ∈ node_names g \/ s = START)) (all_sources g) with
  | Some (_, s) =>
      Raise (ValueError ("Found edge starting at unknown node '" +:+ s +:+ "'"))
  | None =>
      if decide (START ∈ all_sources g) then
        match list_find (fun t => ~ (t ∈ node_names g \/ t = END)) (all_targets g) with
        | Some (_, t) =>
            Raise (ValueError ("Found edge ending at unknown node `" +:+ t +:+ "`"))
        | None => Ok g
        end
      else
        Raise (ValueError
          "Graph must have an entrypoint: add at least one edge from START to another node")
  end.

(** The compiled graph is the validated builder. *)
Definition compile (g : StateGraph) : result StateGraph := validate g.

(** ** [Langgraph/GraphState.py] *)

(** The fields of [self] that [setup_graph] inspects; the language models,
    the toolkit and the memories are only handed to the factories. *)
Record GraphSetup : Type := Setup {
  self_tool_nodes : gmap string string;
  conditional_logic : ConditionalLogic
}.

(** The three dictionaries [analyst_nodes], [delete_nodes], [tool_nodes]. *)
Record analyst_dicts : Type := Dicts {
  analyst_nodes : list (string * handler);
  delete_nodes : list (string * handler);
  tool_nodes : list (string * handler)
}.

(** Lines 74-79: [for key in selected_analysts: if key in analysts_map: ...] *)
Fixpoint create_analyst_nodes (mods : gmap string (list string))
    (analysts_map : gmap string string) (self : GraphSetup)
    (delete_factory : string) (keys : list string) (d : analyst_dicts)
  : result analyst_dicts :=
  match keys with
  | [] => Ok d
  | key :: rest =>
      match analysts_map !! key with
      | Some dotted_path =>
          let! factory := import_from_string mods dotted_path in
          create_analyst_nodes mods analysts_map self delete_factory rest
            (Dicts
               (dict_set key (Built factory ["quick_thinking_llm"; "toolkit"])
                         (analyst_nodes d))
               (dict_set key (Built delete_factory []) (delete_nodes d))
               (dict_set key (FromToolNodes (self_tool_nodes self !! key))
                         (tool_nodes d)))
      | None =>
          create_analyst_nodes mods analysts_map self delete_factory rest d
      end
  end.

(** Lines 107-112: [for analyst_type, node in analyst_nodes.items(): ...] *)
Fixpoint add_analyst_nodes (d : analyst_dicts) (items : list (string * handler))
    (workflow : StateGraph) : result StateGraph :=
  match items with
  | [] => Ok workflow
  | (analyst_type, node) :: rest =>
      let! workflow := add_node (analyst_name analyst_type) node workflow in
      let! delete_node := dict_item analyst_type (delete_nodes d) in
      let! workflow := add_node (clear_name analyst_type) delete_node workflow in
      let! tool_node := dict_item analyst_type (tool_nodes d) in
      let! workflow := add_node (tools_name analyst_type) tool_node workflow in
      add_analyst_nodes d rest workflow
  end.

(** Lines 130-148: [for i, analyst_type in enumerate(selected_analysts): ...];
    [rest] is what is left of the enumeration at index [i]. *)
Fixpoint connect_analysts (logic : ConditionalLogic)
    (selected_analysts : list string) (i : nat) (rest : list string)
    (workflow : StateGraph) : result StateGraph :=
  match rest with
  | [] => Ok workflow
  | analyst_type :: rest' =>
      let current_analyst := analyst_name analyst_type in
      let current_tools := tools_name analyst_type in
      let current_clear := clear_name analyst_type in
      let! path := getattr_logic ("should_continue_" +:+ analyst_type) in
      let! workflow :=
        add_conditional_edges current_analyst path
          (path_map_of_list [current_tools; current_clear]) workflow in
      let! workflow := add_edge current_tools current_analyst workflow in
      let! workflow :=
        if decide (Z.of_nat i < Z.of_nat (length selected_analysts) - 1)%Z then
          match selected_analysts !! (i + 1)%nat with
          | Some next => add_edge current_clear (analyst_name next) workflow
          | None => Raise (IndexError "list index out of range")
          end
        else add_edge current_clear "Bull Researcher" workflow in
      connect_analysts logic selected_analysts (S i) rest' workflow
  end.

Definition setup_graph (mods : gmap string (list string))
    (agents_config : registry) (self : GraphSetup)
    (selected_analysts : list string) : result StateGraph :=
  if decide (length selected_analysts = 0%nat) then
    Raise (ValueError "Trading Agents Graph Setup Error: no analysts selected!")
  else
    let utilities := reg_utilities agents_config in
    let! delete_factory :=
      import_from_string mods
        (default "agents.utils.agent_utils.create_msg_delete"
                 (utilities !! "delete_messages")) in
    let analysts_map := reg_analysts agents_config in
    let! d := create_analyst_nodes mods analysts_map self delete_factory
                selected_analysts (Dicts [] [] []) in
    (* researcher and manager nodes *)
    let! bull_path := section_item "researchers" (reg_researchers agents_config) "bull" in
    let! bull_factory := import_from_string mods bull_path in
    let! bear_path := section_item "researchers" (reg_researchers agents_config) "bear" in
    let! bear_factory := import_from_string mods bear_path in
    let! research_manager_path :=
      section_item "managers" (reg_managers agents_config) "research" in
    let! research_manager_factory := import_from_string mods research_manager_path in
    let! trader_path :=
      match reg_trader agents_config with
      | Some p => Ok p
      | None => Raise (KeyError "trader")
      end in
    let! trader_factory := import_from_string mods trader_path in
    let bull_researcher_node := Built bull_factory ["quick_thinking_llm"; "bull_memory"] in
    let bear_researcher_node := Built bear_factory ["quick_thinking_llm"; "bear_memory"] in
    let research_manager_node :=
      Built research_manager_factory ["deep_thinking_llm"; "invest_judge_memory"] in
    let trader_node := Built trader_factory ["quick_thinking_llm"; "trader_memory"] in
    (* risk analysis nodes *)
    let! risky_path := section_item "risk_roles" (reg_risk_roles agents_config) "risky" in
    let! risky_factory := import_from_string mods risky_path in
    let! neutral_path := section_item "risk_roles" (reg_risk_roles agents_config) "neutral" in
    let! neutral_factory := import_from_string mods neutral_path in
    let! safe_path := section_item "risk_roles" (reg_risk_roles agents_config) "safe" in
    let! safe_factory := import_from_string mods safe_path in
    let! risk_manager_path := section_item "managers" (reg_managers agents_config) "risk" in
    let! risk_manager_factory := import_from_string mods risk_manager_path in
    let risky_analyst := Built risky_factory ["quick_thinking_llm"] in
    let neutral_analyst := Built neutral_factory ["quick_thinking_llm"] in
    let safe_analyst := Built safe_factory ["quick_thinking_llm"] in
    let risk_manager_node :=
      Built risk_manager_factory ["deep_thinking_llm"; "risk_manager_memory"] in
    (* workflow *)
    let workflow := new_graph in
    let! workflow := add_analyst_nodes d (analyst_nodes d) workflow in
    let! workflow := add_node "Bull Researcher" bull_researcher_node workflow in
    let! workflow := add_node "Bear Researcher" bear_researcher_node workflow in
    let! workflow := add_node "Research Manager" research_manager_node workflow in
    let! workflow := add_node "Trader" trader_node workflow in
    let! workflow := add_node "Risky Analyst" risky_analyst workflow in
    let! workflow := add_node "Neutral Analyst" neutral_analyst workflow in
    let! workflow := add_node "Safe Analyst" safe_analyst workflow in
    let! workflow := add_node "Risk Judge" risk_manager_node workflow in
    (* edges *)
    let! first_analyst :=
      match selected_analysts !! 0%nat with
      | Some k => Ok k
      | None => Raise (IndexError "list index out of range")
      end in
    let! workflow := add_edge START (analyst_name first_analyst) workflow in
    let! workflow :=
      connect_analysts (conditional_logic self) selected_analysts 0
        selected_analysts workflow in
    let! workflow :=
      add_conditional_edges "Bull Researcher" should_continue_debate
        [("Bear Researcher", "Bear Researcher");
         ("Research Manager", "Research Manager")] workflow in
    let! workflow :=
      add_conditional_edges "Bear Researcher" should_continue_debate
        [("Bull Researcher", "Bull Researcher");
         ("Research Manager", "Research Manager")] workflow in
    let! workflow := add_edge "Research Manager" "Trader" workflow in
    let! workflow := add_edge "Trader" "Risky Analyst" workflow in
    let! workflow :=
      add_conditional_edges "Risky Analyst" should_continue_risk_analysis
        [("Safe Analyst", "Safe Analyst"); ("Risk Judge", "Risk Judge")] workflow in
    let! workflow :=
      add_conditional_edges "Safe Analyst" should_continue_risk_analysis
        [("Neutral Analyst", "Neutral Analyst"); ("Risk Judge", "Risk Judge")]
        workflow in
    let! workflow :=
      add_conditional_edges "Neutral Analyst" should_continue_risk_analysis
        [("Risky Analyst", "Risky Analyst"); ("Risk Judge", "Risk Judge")]
        workflow in
    let! workflow := add_edge "Risk Judge" END workflow in
    compile workflow.

(** ** A deployment to evaluate on

    The package [agents] (its [__init__.py]) exports the thirteen
    factories; the registry below names them. *)
Definition repo_modules : gmap string (list string) :=
  {[ "agents" :=
       ["create_fundamentals_analyst"; "create_market_analyst";
        "create_news_analyst"; "create_social_media_analyst";
        "create_bull_researcher"; "create_bear_researcher"; "create_trader";
        "create_research_manager"; "create_risk_manager";
        "create_risky_debator"; "create_safe_debator";
        "create_neutral_debator"; "create_msg_delete"];
     "agents.utils.agent_utils" := ["create_msg_delete"; "Toolkit"] ]}.

Definition sample_registry : registry :=
  Registry
    ∅
    {[ "market" := "agents.create_market_analyst";
       "social" := "agents.create_social_media_analyst";
       "news" := "agents.create_news_analyst";
       "fundamentals" := "agents.create_fundamentals_analyst" ]}
    (Some {[ "bull" := "agents.create_bull_researcher";
             "bear" := "agents.create_bear_researcher" ]})
    (Some {[ "research" := "agents.create_research_manager";
             "risk" := "agents.create_risk_manager" ]})
    (Some "agents.create_trader")
    (Some {[ "risky" := "agents.create_risky_debator";
             "safe" := "agents.create_safe_debator";
             "neutral" := "agents.create_neutral_debator" ]}).

Definition sample_setup (logic : ConditionalLogic) : GraphSetup :=
  Setup {[ "market" := "ToolNode(market)"; "social" := "ToolNode(social)";
           "news" := "ToolNode(news)";
           "fundamentals" := "ToolNode(fundamentals)" ]}
        logic.

Definition default_logic : ConditionalLogic := Logic 2 2.

(** The graph the deployment compiles for market followed by news. *)
Definition market_news_graph : StateGraph :=
  Eval vm_compute in
    match setup_graph repo_modules sample_registry (sample_setup default_logic)
            ["market"; "news"] with
    | Ok g => g
    | Raise _ => new_graph
    end.


(** ** Routing in a compiled graph

    After a node has run, control passes along its edges and along each of
    its branches to the end that the branch's predicate names in the
    current state. *)

Definition edge_targets (g : StateGraph) (n : string) : list string :=
  (filter (fun e => e.1 = n) (edges g)).*2.

Definition branches_from (g : StateGraph) (n : string)
  : list ((string * string) * Branch) :=
  filter (fun b => b.1.1 = n) (branches g).

Definition route (logic : ConditionalLogic) (st : AgentState) (b : Branch)
  : option string :=
  dict_get (eval_predicate logic (br_path b) st) (br_ends b).

Definition successors (logic : ConditionalLogic) (g : StateGraph)
    (st : AgentState) (n : string) : list string :=
  edge_targets g n ++ omap (fun b => route logic st b.2) (branches_from g n).

(** [trace] lists, for each visit after the one of [n], the state the
    routing out of the previous node read and the node it led to. *)
Fixpoint is_run (logic : ConditionalLogic) (g : StateGraph) (n : string)
    (trace : list (AgentState * string)) : Prop :=
  match trace with
  | [] => True
  | (st, n') :: trace' =>
      n' ∈ successors logic g st n /\ is_run logic g n' trace'
  end.

(** Where control can pass from a node, whatever the state: the targets of
    its edges and the ends of its branches. *)
Definition possible_targets (g : StateGraph) (n : string) : list string :=
  edge_targets g n ++ flat_map (fun b => (br_ends b.2).*2) (branches_from g n).

(** The eight nodes every graph has, in the order they are added. *)
Definition fixed_nodes : list string :=
  ["Bull Researcher"; "Bear Researcher"; "Research Manager"; "Trader";
   "Risky Analyst"; "Neutral Analyst"; "Safe Analyst"; "Risk Judge"].

(** The three nodes of one analyst, in the order they are added. *)
Definition stage_nodes (analyst_type : string) : list string :=
  [analyst_name analyst_type; clear_name analyst_type; tools_name analyst_type].

(** ** What the loops of [setup_graph] record *)

(** The predicate [getattr] finds for an analyst. *)
Definition stage_predicate (analyst_type : string) : predicate :=
  match getattr_logic ("should_continue_" +:+ analyst_type) with
  | Ok p => p
  | Raise _ => should_continue_stage analyst_type
  end.

Definition stage_branch (analyst_type : string) : (string * string) * Branch :=
  ((analyst_name analyst_type, "should_continue_" +:+ analyst_type),
   MkBranch (stage_predicate analyst_type)
            (path_map_of_list [tools_name analyst_type; clear_name analyst_type])).

(** Where the message-clearing node of the analyst at index [i] leads. *)
Definition next_hop (selected_analysts : list string) (i : nat) : string :=
  match selected_analysts !! (i + 1)%nat with
  | Some next => analyst_name next
  | None => "Bull Researcher"
  end.

Fixpoint stage_edges (selected_analysts : list string) (i : nat)
    (rest : list string) : list (string * string) :=
  match rest with
  | [] => []
  | analyst_type :: rest' =>
      (tools_name analyst_type, analyst_name analyst_type)
      :: (clear_name analyst_type, next_hop selected_analysts i)
      :: stage_edges selected_analysts (S i) rest'
  end.

Definition fixed_branches : list ((string * string) * Branch) :=
  [(("Bull Researcher", "should_continue_debate"),
    MkBranch should_continue_debate
      [("Bear Researcher", "Bear Researcher");
       ("Research Manager", "Research Manager")]);
   (("Bear Researcher", "should_continue_debate"),
    MkBranch should_continue_debate
      [("Bull Researcher", "Bull Researcher");
       ("Research Manager", "Research Manager")]);
   (("Risky Analyst", "should_continue_risk_analysis"),
    MkBranch should_continue_risk_analysis
      [("Safe Analyst", "Safe Analyst"); ("Risk Judge", "Risk Judge")]);
   (("Safe Analyst", "should_continue_risk_analysis"),
    MkBranch should_continue_risk_analysis
      [("Neutral Analyst", "Neutral Analyst"); ("Risk Judge", "Risk Judge")]);
   (("Neutral Analyst", "should_continue_risk_analysis"),
    MkBranch should_continue_risk_analysis
      [("Risky Analyst", "Risky Analyst"); ("Risk Judge", "Risk Judge")])].

Definition fixed_edges : list (string * string) :=
  [("Research Manager", "Trader"); ("Trader", "Risky Analyst");
   ("Risk Judge", END)].

(** The analyst a selection starts with ([selected_analysts[0]]). *)
Definition first_analyst (selected_analysts : list string) : string :=
  default EmptyString (selected_analysts !! 0%nat).

Definition expected_edges (selected_analysts : list string)
  : list (string * string) :=
  (START, analyst_name (first_analyst selected_analysts))
  :: stage_edges selected_analysts 0 selected_analysts ++ fixed_edges.

(** [key in analysts_map] *)
Definition registered (analysts_map : gmap string string) (key : string) : Prop :=
  is_Some (analysts_map !! key).

(** The keys of [analyst_nodes] after the node-creation loop has run over
    [selected], starting from a dictionary with the keys [keys0]. *)
Definition keys_after (analysts_map : gmap string string)
    (keys0 selected : list string) : list string :=
  foldl (fun acc k => set_add k acc) keys0
        (filter (registered analysts_map) selected).

(** Node names the builder takes: pairwise distinct and not reserved. *)
Definition names_ok (l : list string) : Prop :=
  NoDup l /\ (START ∉ l) /\ (END ∉ l).

(** A name without the builder's separator characters. *)
Definition plain_name (node : string) : bool :=
  negb (contains_char NS_SEP node) && negb (contains_char NS_END node).



(** [self.tool_nodes] has an entry for each of [keys]. *)
Definition tool_nodes_for (self : GraphSetup) (keys : list string) : Prop :=
  Forall (fun key => is_Some (self_tool_nodes self !! key)) keys.

(** ** A registry whose factories can be imported *)

Definition loads (mods : gmap string (list string)) (r : result string) : bool :=
  match r with
  | Ok dotted_path =>
      match import_from_string mods dotted_path with
      | Ok _ => true
      | Raise _ => false
      end
  | Raise _ => false
  end.


(** ** [memory/enhanced_memory.py] and [NeonDB/neon.py] *)

Module Memory.
Section WithStores.

(** Floating-point numbers and the operation [1 - x] on them. *)
Variable num : Type.
Variable one_minus : num -> num.
(** Vectors, the embedding model, and the cosine distance [<=>] with the
    order [ORDER BY] sorts it in. *)
Variable embedding : Type.
Variable get_embedding : string -> embedding.
Variable distance : embedding -> embedding -> num.
Variable num_leb : num -> num -> bool.

(** Python values that occur in the returned dictionaries. *)
Inductive pyval : Type :=
  | VNone
  | VInt (z : Z)
  | VStr (s : string)
  | VNum (x : num).

(** One match of a ChromaDB query: [results["documents"][0][i]],
    [results["metadatas"][0][i]], [results["distances"][0][i]].  The
    metadata of a document that was stored without any is [None]. *)
Record hit : Type := Hit {
  hit_document : string;
  hit_metadata : option (list (string * string));
  hit_distance : num
}.

(** [situation_collection.query(query_embeddings=[q], n_results=n, ...)]:
    the collection's answer, whatever the store is. *)
Variable collection_query : embedding -> Z -> result (list hit).

(** A row of the table [financial_memories]. *)
Record memory_row : Type := Row {
  row_id : Z;
  row_memory_type : string;
  row_ticker : option string;
  row_content : string;
  row_metadata : string;
  row_created_at : string;
  row_embedding : embedding
}.

(** The database behind [NeonVectorDB]: its rows, whether a query round
    trip goes through, and whether the connections of the pool have a
    codec for the type [vector], without which a Python list cannot be
    sent for a [vector] parameter. *)
Record NeonVectorDB : Type := Neon {
  db_rows : list memory_row;
  db_reachable : bool;
  db_vector_codec : bool
}.


Record EnhancedFinancialMemory : Type := Mem {
  name : string;
  use_vector_db : bool;
  vector_db : option NeonVectorDB
}.

Definition opt_str (o : option string) : pyval :=
  match o with
  | Some s => VStr s
  | None => VNone
  end.

(** Python truthiness of an optional string argument. *)
Definition truthy_opt (o : option string) : bool :=
  match o with
  | Some (String _ _) => true
  | _ => false
  end.

Fixpoint mapM {A B : Type} (f : A -> result B) (l : list A) : result (list B) :=
  match l with
  | [] => Ok []
  | x :: l' =>
      let! y := f x in
      let! ys := mapM f l' in
      Ok (y :: ys)
  end.

(** Lines 169-189. *)
Definition get_memories (self : EnhancedFinancialMemory)
    (current_situation : string) (n_matches : Z)
  : result (list (list (string * pyval))) :=
  let query_embedding := get_embedding current_situation in
  let! results := collection_query query_embedding n_matches in
  mapM (fun h =>
          let! recommendation :=
            match hit_metadata h with
            | Some metadata => dict_item "recommendation" metadata
            | None => Raise (TypeError "'NoneType' object is not subscriptable")
            end in
          Ok [("matched_situation", VStr (hit_document h));
              ("recommendation", VStr recommendation);
              ("similarity_score", VNum (one_minus (hit_distance h)))])
       results.

(** What [get_memories] makes of one match. *)
Definition record_of_hit (h : hit) (recommendation : string)
  : list (string * pyval) :=
  [("matched_situation", VStr (hit_document h));
   ("recommendation", VStr recommendation);
   ("similarity_score", VNum (one_minus (hit_distance h)))].

(** [ORDER BY embedding <=> $1]. *)
Fixpoint insert_by (q : embedding) (r : memory_row) (l : list memory_row)
  : list memory_row :=
  match l with
  | [] => [r]
  | r' :: l' =>
      if num_leb (distance (row_embedding r) q) (distance (row_embedding r') q)
      then r :: l
      else r' :: insert_by q r l'
  end.

Definition order_by_distance (q : embedding) (l : list memory_row)
  : list memory_row :=
  foldr (insert_by q) [] l.

(** [dict(row)] for the columns of the [SELECT]. *)
Definition row_dict (q : embedding) (r : memory_row) : list (string * pyval) :=
  [("id", VInt (row_id r));
   ("memory_type", VStr (row_memory_type r));
   ("ticker", opt_str (row_ticker r));
   ("content", VStr (row_content r));
   ("metadata", VStr (row_metadata r));
   ("created_at", VStr (row_created_at r));
   ("similarity", VNum (one_minus (distance (row_embedding r) q)))].

(** [NeonVectorDB.semantic_search_memories]: any failure is logged and
    answered with the empty list.  The query fails when the database
    cannot be reached, when the list [query_embedding] cannot be encoded
    for [$1], when [limit] does not fit the [bigint] of [$2], and when
    [LIMIT] is negative. *)
Definition semantic_search_memories (db : NeonVectorDB) (query : string)
    (memory_type : option string) (ticker : option string) (limit : Z)
  : list (list (string * pyval)) :=
  if negb (db_reachable db) then []
  else if negb (db_vector_codec db) then []
  else if decide (limit < - 2 ^ 63 \/ 2 ^ 63 <= limit)%Z then []
  else if decide (limit < 0)%Z then []
  else
    let query_embedding := get_embedding query in
    let keep (r : memory_row) : bool :=
      (if truthy_opt memory_type
       then bool_decide (Some (row_memory_type r) = memory_type) else true)
      && (if truthy_opt ticker
          then bool_decide (row_ticker r = ticker) else true) in
    row_dict query_embedding
      <$> take (Z.to_nat limit)
            (order_by_distance query_embedding (List.filter keep (db_rows db))).

(** Lines 191-221. *)
Definition semantic_search_async (self : EnhancedFinancialMemory)
    (query : string) (ticker : option string) (limit : Z)
  : result (list (list (string * pyval))) :=
  match use_vector_db self, vector_db self with
  | true, Some db =>
      Ok (semantic_search_memories db query (Some (name self)) ticker limit)
  | _, _ => get_memories self query limit
  end.

(** Lines 223-242. *)
Definition get_relevant_memories (self : EnhancedFinancialMemory)
    (context : string) (ticker : option string) (limit : Z)
  : result (list (list (string * pyval))) :=
  match use_vector_db self, vector_db self with
  | true, Some _ =>
      match semantic_search_async self context ticker limit with
      | Ok r => Ok r
      | Raise _ => get_memories self context limit
      end
  | _, _ => get_memories self context limit
  end.


End WithStores.
End Memory.

(** ** [scripts/validate_registries.py] *)

(** What [json.load] returns.  Numbers are kept as written. *)
Unset Elimination Schemes.
Inductive json : Type :=
  | JNull
  | JBool (b : bool)
  | JNumber (literal : string)
  | JString (s : string)
  | JArray (items : list json)
  | JObject (members : list (string * json)).
Set Elimination Schemes.

(** [str(e)] *)
Definition exn_str (e : exn) : string :=
  match e with
  | ValueError msg => msg
  | ImportError msg => msg
  | ModuleNotFoundError msg => msg
  | KeyError key => "'" +:+ key +:+ "'"
  | IndexError msg => msg
  | AttributeError msg => msg
  | RuntimeError msg => msg
  | TypeError msg => msg
  end.

(** A failure is the triple [(label, obj, str(e))]. *)
Fixpoint validate_dotted_paths (mods : gmap string (list string)) (obj : json)
    (label : string) : list (string * string * string) :=
  match obj with
  | JObject members =>
      (fix items (members : list (string * json)) :=
         match members with
         | [] => []
         | (key, value) :: rest =>
             validate_dotted_paths mods value (label +:+ "." +:+ key)
             ++ items rest
         end) members
  | JArray values =>
      (fix enumerate (i : nat) (values : list json) :=
         match values with
         | [] => []
         | value :: rest =>
             validate_dotted_paths mods value
               (label +:+ "[" +:+ pretty i +:+ "]")
             ++ enumerate (S i) rest
         end) 0%nat values
  | JString dotted =>
      match import_from_string mods dotted with
      | Ok _ => []
      | Raise e => [(label, dotted, exn_str e)]
      end
  | _ => []
  end.

(** The strings of a document, in the order the validation meets them. *)
Fixpoint string_leaves (obj : json) : list string :=
  match obj with
  | JObject members =>
      (fix items (members : list (string * json)) :=
         match members with
         | [] => []
         | (_, value) :: rest => string_leaves value ++ items rest
         end) members
  | JArray values =>
      (fix each (values : list json) :=
         match values with
         | [] => []
         | value :: rest => string_leaves value ++ each rest
         end) values
  | JString dotted => [dotted]
  | _ => []
  end.

(** What is at a path: nothing, a file that is not JSON (with the message
    of the parser), or a JSON document. *)
Inductive file_state : Type :=
  | Missing
  | NotJson (msg : string)
  | Parsed (obj : json).

(** [os.path.join(a, b)] for a relative [b], on POSIX. *)
Fixpoint ends_with_slash (s : string) : bool :=
  match s with
  | EmptyString => false
  | String c EmptyString => bool_decide (c = "/"%char)
  | String _ s' => ends_with_slash s'
  end.

Definition path_join (a b : string) : string :=
  if decide (a = EmptyString) then b
  else if ends_with_slash a then a +:+ b
  else a +:+ "/" +:+ b.

(** [os.path.basename(p)]: what follows the last slash. *)
Fixpoint basename (p : string) : string :=
  match p with
  | EmptyString => EmptyString
  | String c p' =>
      if decide (c = "/"%char) then basename p'
      else if existsb (fun x => bool_decide (x = "/"%char)) (list_ascii_of_string p')
           then basename p'
           else p
  end.

Definition registry_paths (root : string) : list string :=
  [path_join (path_join root "agents") "registry.json";
   path_join (path_join root "tools") "registry.json";
   path_join (path_join root "memory") "registry.json"].

(** The loop of [main]: what is printed and the failures collected. *)
Fixpoint check_registries (fs : string -> file_state)
    (mods : gmap string (list string)) (paths : list string)
  : list string * list (string * string * string) :=
  match paths with
  | [] => ([], [])
  | p :: rest =>
      let '(out, all_failures) := check_registries fs mods rest in
      match fs p with
      | Missing =>
          (("Missing registry: " +:+ p) :: out,
           (p, "MISSING", "File not found") :: all_failures)
      | NotJson msg =>
          (("Invalid JSON: " +:+ p +:+ " -> " +:+ msg) :: out,
           (p, "JSON", msg) :: all_failures)
      | Parsed obj =>
          let failures := validate_dotted_paths mods obj (basename p) in
          match failures with
          | [] => (("OK: " +:+ p) :: out, all_failures)
          | _ :: _ =>
              (("Errors in " +:+ p +:+ ":")
               :: ((fun f : string * string * string =>
                      "  - " +:+ f.1.1 +:+ ": " +:+ f.1.2 +:+ " -> " +:+ f.2)
                     <$> failures)
               ++ out,
               failures ++ all_failures)
          end
      end
  end.

(** [main]: the printed lines and the exit status ([None] when the
    function returns without [sys.exit]). *)
Definition validate_main (fs : string -> file_state)
    (mods : gmap string (list string)) (root : string)
  : list string * option Z :=
  let '(out, all_failures) := check_registries fs mods (registry_paths root) in
  match all_failures with
  | [] => (out, None)
  | _ :: _ => (out, Some 1%Z)
  end.

(** ** A memory whose vector database holds one row

    The database is the one [initialize] connects to. *)



(** ** A ChromaDB collection and a table to evaluate on

    Numbers are integers here, an embedding is one integer and the
    distance of two embeddings is the absolute difference. *)

Definition sample_hits : list (Memory.hit Z) :=
  [Memory.Hit Z "rates rising" (Some [("recommendation", "reduce exposure")])
     0%Z;
   Memory.Hit Z "earnings beat" (Some [("recommendation", "add to position")])
     3%Z].

Definition sample_collection_query (q : Z) (n : Z)
  : result (list (Memory.hit Z)) :=
  Ok (take (Z.to_nat n) sample_hits).

(** A collection whose second document was stored without metadata. *)
Definition bare_collection_query (q : Z) (n : Z)
  : result (list (Memory.hit Z)) :=
  Ok [Memory.Hit Z "rates rising" (Some [("recommendation", "reduce exposure")])
        0%Z;
      Memory.Hit Z "earnings beat" None 3%Z].

(** A collection whose first document carries metadata of another kind. *)
Definition foreign_collection_query (q : Z) (n : Z)
  : result (list (Memory.hit Z)) :=
  Ok [Memory.Hit Z "rates rising" (Some [("source", "newswire")]) 0%Z;
      Memory.Hit Z "earnings beat" None 3%Z].

Definition sample_distance (a b : Z) : Z := Z.abs (a - b).

(** A table behind connections that can encode a list as a [vector]. *)
Definition sample_db : Memory.NeonVectorDB Z :=
  Memory.Neon Z
    [Memory.Row Z 1 "bull_memory" (Some "NVDA") "far" "{}" "2025-06-01" 9%Z;
     Memory.Row Z 2 "bear_memory" (Some "NVDA") "other type" "{}" "2025-06-01" 0%Z;
     Memory.Row Z 3 "bull_memory" (Some "NVDA") "near" "{}" "2025-06-02" 1%Z;
     Memory.Row Z 4 "bull_memory" None "no ticker" "{}" "2025-06-03" 2%Z]
    true true.

(** * Properties *)

#[local] Arguments String.append !_ _ / : simpl nomatch.

(** ** Results *)

Lemma bind_ok_inv {A B : Type} (r : result A) (k : A -> result B) (b : B) :
  bind r k = Ok b -> exists a, r = Ok a /\ k a = Ok b.
Proof. destruct r as [a|e]; simpl; [eauto | discriminate]. Qed.

Tactic Notation "bind_inv" hyp(H) "as" ident(a) ident(Ha) :=
  apply bind_ok_inv in H; destruct H as (a & Ha & H).


(** ** Node names *)

Lemma upper_ascii_not_lower (c : ascii) : is_lower_ascii (upper_ascii c) = false.
Proof. destruct c as [[] [] [] [] [] [] [] []]; vm_compute; reflexivity. Qed.

Lemma tools_name_inj (a b : string) : tools_name a = tools_name b -> a = b.
Proof. unfold tools_name; simpl. intros H; congruence. Qed.

Lemma tools_name_not_analyst (a b : string) : tools_name a <> analyst_name b.
Proof.
  unfold tools_name, analyst_name. destruct b as [|c b]; simpl; [discriminate|].
  intros H. injection H as Hc _.
  pose proof (upper_ascii_not_lower c) as Hl. rewrite <- Hc in Hl.
  discriminate Hl.
Qed.

Lemma tools_name_not_clear (a b : string) : tools_name a <> clear_name b.
Proof. unfold tools_name, clear_name; simpl; discriminate. Qed.

(** Closes a goal from [H : x ∈ [a; b; ...]] when [x] differs from each
    listed element by its constructors. *)
Ltac not_listed H :=
  repeat (apply elem_of_cons in H as [H|H]; [discriminate H|]);
  by apply elem_of_nil in H.

Lemma tools_name_not_fixed (a : string) : tools_name a ∉ fixed_nodes.
Proof. unfold tools_name, fixed_nodes; simpl. intros H. not_listed H. Qed.

Lemma clear_name_not_fixed (a : string) : clear_name a ∉ fixed_nodes.
Proof. unfold clear_name, fixed_nodes; simpl. intros H. not_listed H. Qed.

Lemma tools_name_not_stage (a b : string) :
  tools_name a ∈ stage_nodes b -> a = b.
Proof.
  unfold stage_nodes. intros H.
  apply elem_of_cons in H as [H|H]; [by apply tools_name_not_analyst in H|].
  apply elem_of_cons in H as [H|H]; [by apply tools_name_not_clear in H|].
  apply list_elem_of_singleton in H. by apply tools_name_inj.
Qed.

(** ** The builder *)

Lemma add_node_ok_inv (n : string) (a : handler) (g g' : StateGraph) :
  add_node n a g = Ok g' ->
(n ∉ node_names g) /\ n <> END /\ n <> START
  /\ g' = Graph (nodes g ++ [(n, a)]) (edges g) (branches g).
Proof.
  unfold add_node.
  destruct (contains_char NS_SEP n); [discriminate|].
  destruct (contains_char NS_END n); [discriminate|].
  destruct (is_none a); [discriminate|].
  repeat case_decide; try discriminate.
  intros [= <-]. split_and!; [done | tauto | tauto | done].
Qed.

Lemma add_node_ok_action (n : string) (a : handler) (g g' : StateGraph) :
  add_node n a g = Ok g' -> plain_name n = true /\ is_none a = false.
Proof.
  unfold add_node, plain_name.
  destruct (contains_char NS_SEP n); [discriminate|].
  destruct (contains_char NS_END n); [discriminate|].
  destruct (is_none a); [discriminate|]. done.
Qed.

Lemma add_edge_ok_inv (s t : string) (g g' : StateGraph) :
  add_edge s t g = Ok g' ->
  s <> END /\ t <> START
  /\ g' = Graph (nodes g) (set_add (s, t) (edges g)) (branches g).
Proof.
  unfold add_edge. repeat case_decide; try discriminate.
  intros [= <-]. done.
Qed.

Lemma add_conditional_edges_ok_inv (s : string) (p : predicate)
    (m : list (string * string)) (g g' : StateGraph) :
  add_conditional_edges s p m g = Ok g' ->
((s, predicate_name p) ∉ (branches g).*1)
  /\ g' = Graph (nodes g) (edges g)
                (branches g ++ [((s, predicate_name p), MkBranch p m)]).
Proof.
  unfold add_conditional_edges. case_decide; try discriminate.
  intros [= <-]. done.
Qed.

Lemma NoDup_set_add {A : Type} `{EqDecision A} (y : A) (s : list A) :
  NoDup s -> NoDup (set_add y s).
Proof.
  unfold set_add. intros Hnd. case_decide as Hy; [done|].
  apply NoDup_app. split_and!; [done| |apply NoDup_singleton].
  intros x Hx Hx'. apply list_elem_of_singleton in Hx'. by subst.
Qed.

Lemma elem_of_set_add {A : Type} `{EqDecision A} (x y : A) (s : list A) :
  x ∈ set_add y s <-> x = y \/ x ∈ s.
Proof.
  unfold set_add. case_decide.
  - split; [tauto | intros [->|]; done].
  - rewrite elem_of_app, list_elem_of_singleton. tauto.
Qed.

(** ** The dictionaries of the node-creation loop *)

Lemma dict_keys_set {V : Type} (k : string) (v : V) (d : list (string * V)) :
  dict_keys (dict_set k v d) = set_add k (dict_keys d).
Proof.
  unfold dict_keys, set_add. induction d as [|[k' v'] d IH]; csimpl.
  - done.
  - destruct (decide (k = k')) as [Hk|Hk]; csimpl.
    + subst k'. rewrite decide_True by apply list_elem_of_here. done.
    + rewrite IH. destruct (decide (k ∈ d.*1)) as [H1|H1].
      * rewrite decide_True by (by apply list_elem_of_further). done.
      * rewrite decide_False; [done|].
        intros H2. apply elem_of_cons in H2 as [H2|H2]; done.
Qed.


Lemma dict_get_elem_of {V : Type} (k : string) (v : V) (d : list (string * V)) :
  dict_get k d = Some v -> (k, v) ∈ d.
Proof.
  induction d as [|[k' v'] d IH]; csimpl; [discriminate|].
  case_decide.
  - intros [= ->]. subst k'. left.
  - intros H'. right. by apply IH.
Qed.

Lemma Forall_dict_set {V : Type} (P : string * V -> Prop) (k : string) (v : V)
    (d : list (string * V)) :
  Forall P d -> P (k, v) -> Forall P (dict_set k v d).
Proof.
  intros Hd Hp. induction Hd as [|[k' v'] d Hx Hd IH]; simpl.
  - by constructor.
  - case_decide; by constructor.
Qed.

(** What the three dictionaries hold: factory results, and the entries of
    [self.tool_nodes] under the same keys. *)
Lemma create_analyst_nodes_handlers mods amap self df keys d d' :
  create_analyst_nodes mods amap self df keys d = Ok d' ->
  Forall (fun kv => is_none kv.2 = false) (analyst_nodes d) ->
  Forall (fun kv => is_none kv.2 = false) (delete_nodes d) ->
  Forall (fun kv => kv.2 = FromToolNodes (self_tool_nodes self !! kv.1))
         (tool_nodes d) ->
  Forall (fun kv => is_none kv.2 = false) (analyst_nodes d')
  /\ Forall (fun kv => is_none kv.2 = false) (delete_nodes d')
  /\ Forall (fun kv => kv.2 = FromToolNodes (self_tool_nodes self !! kv.1))
            (tool_nodes d').
Proof.
  revert d. induction keys as [|key rest IH]; intros d H Ha Hd Ht; simpl in H.
  - injection H as <-. done.
  - destruct (amap !! key) as [path|]; [|by apply (IH d)].
    bind_inv H as f Hf. apply IH in H; [done|..]; simpl;
      by apply Forall_dict_set.
Qed.

Lemma create_analyst_nodes_keys mods amap self df keys d d' :
  create_analyst_nodes mods amap self df keys d = Ok d' ->
  dict_keys (delete_nodes d) = dict_keys (analyst_nodes d) ->
  dict_keys (tool_nodes d) = dict_keys (analyst_nodes d) ->
  dict_keys (delete_nodes d') = dict_keys (analyst_nodes d')
  /\ dict_keys (tool_nodes d') = dict_keys (analyst_nodes d')
  /\ dict_keys (analyst_nodes d') = keys_after amap (dict_keys (analyst_nodes d)) keys.
Proof.
  revert d. induction keys as [|key rest IH]; intros d H Hd Ht; simpl in H.
  - injection H as <-. done.
  - unfold keys_after. destruct (amap !! key) as [path|] eqn:Hkey.
    + bind_inv H as f Hf. apply IH in H; simpl.
      * destruct H as (H1 & H2 & H3). split_and!; [done..|].
        rewrite H3. simpl. rewrite dict_keys_set.
        rewrite filter_cons_True by (by eexists). done.
      * by rewrite !dict_keys_set, Hd.
      * by rewrite !dict_keys_set, Ht.
    + apply IH in H; [|done..]. destruct H as (H1 & H2 & H3).
      split_and!; [done..|]. rewrite H3.
      rewrite filter_cons_False; [done|].
      intros [x Hx]. congruence.
Qed.

Lemma foldl_set_add_fresh (acc l : list string) :
  NoDup l -> (forall k, k ∈ l -> k ∉ acc) ->
  foldl (fun acc k => set_add k acc) acc l = acc ++ l.
Proof.
  revert acc. induction l as [|k l IH]; intros acc Hnd Hfresh; simpl.
  - by rewrite app_nil_r.
  - apply NoDup_cons in Hnd as [Hk Hnd].
    unfold set_add at 2. rewrite decide_False by (apply Hfresh; left).
    rewrite IH; [by rewrite <- app_assoc | done |].
    intros k' Hk' Hin. apply elem_of_app in Hin as [Hin|Hin].
    + eapply Hfresh; [by right | done].
    + apply list_elem_of_singleton in Hin. by subst.
Qed.

Lemma elem_of_foldl_set_add (acc l : list string) (k : string) :
  k ∈ foldl (fun acc k => set_add k acc) acc l <-> k ∈ acc \/ k ∈ l.
Proof.
  revert acc. induction l as [|x l IH]; intros acc; simpl.
  - rewrite elem_of_nil. tauto.
  - rewrite IH, elem_of_set_add, elem_of_cons. tauto.
Qed.

(** ** Adding nodes *)

Lemma names_ok_snoc (l : list string) (n : string) :
  names_ok l -> n ∉ l -> n <> START -> n <> END -> names_ok (l ++ [n]).
Proof.
  intros (Hnd & Hs & He) Hn HnS HnE. unfold names_ok.
  rewrite NoDup_app, !elem_of_app, !list_elem_of_singleton. split_and!.
  - done.
  - intros x Hx Hx'. apply list_elem_of_singleton in Hx'. by subst.
  - apply NoDup_singleton.
  - intros [?|?]; [done | by apply HnS].
  - intros [?|?]; [done | by apply HnE].
Qed.

Lemma add_node_ok_names (n : string) (a : handler) (g g' : StateGraph) :
  add_node n a g = Ok g' ->
  node_names g' = node_names g ++ [n] /\ edges g' = edges g
  /\ branches g' = branches g
  /\ (names_ok (node_names g) -> names_ok (node_names g')).
Proof.
  intros H. apply add_node_ok_inv in H as (Hn & HE & HS & ->).
  assert (Hnames : node_names (Graph (nodes g ++ [(n, a)]) (edges g) (branches g))
                   = node_names g ++ [n]).
  { unfold node_names, dict_keys; simpl. by rewrite fmap_app. }
  split_and!; [done..|]. rewrite Hnames. intros Hok. by apply names_ok_snoc.
Qed.

Lemma add_analyst_nodes_ok d items g g' :
  add_analyst_nodes d items g = Ok g' ->
  node_names g' = node_names g ++ flat_map stage_nodes (dict_keys items)
  /\ edges g' = edges g /\ branches g' = branches g
  /\ (names_ok (node_names g) -> names_ok (node_names g')).
Proof.
  revert g. induction items as [|[k node] items IH]; intros g H; simpl in H.
  - injection H as <-. simpl. by rewrite app_nil_r.
  - bind_inv H as g1 H1. bind_inv H as dn Hdn. bind_inv H as g2 H2.
    bind_inv H as tn Htn. bind_inv H as g3 H3.
    apply add_node_ok_names in H1 as (N1 & E1 & B1 & W1).
    apply add_node_ok_names in H2 as (N2 & E2 & B2 & W2).
    apply add_node_ok_names in H3 as (N3 & E3 & B3 & W3).
    apply IH in H as (N & E & B & W).
    split_and!; [|congruence|congruence|tauto].
    rewrite N, N3, N2, N1. unfold dict_keys; csimpl. unfold stage_nodes at 2.
    by rewrite <- !app_assoc.
Qed.

(** ** Connecting the analysts *)

Lemma getattr_logic_name (n : string) (p : predicate) :
  getattr_logic n = Ok p -> predicate_name p = n.
Proof.
  unfold getattr_logic. repeat case_decide.
  - intros [= <-]. done.
  - intros [= <-]. done.
  - destruct (list_find _ _) as [[j k]|] eqn:Hf; [|discriminate].
    intros [= <-]. apply list_find_Some in Hf as (_ & Hk & _). done.
Qed.

Lemma stage_predicate_getattr (k : string) (p : predicate) :
  getattr_logic ("should_continue_" +:+ k) = Ok p -> stage_predicate k = p.
Proof. unfold stage_predicate. by intros ->. Qed.

Lemma clear_edge_next_hop (sel : list string) (i : nat) (c : string) (g : StateGraph) :
  (if decide (Z.of_nat i < Z.of_nat (length sel) - 1)%Z then
     match sel !! (i + 1)%nat with
     | Some next => add_edge c (analyst_name next) g
     | None => Raise (IndexError "list index out of range")
     end
   else add_edge c "Bull Researcher" g)
  = add_edge c (next_hop sel i) g.
Proof.
  unfold next_hop. case_decide as Hi.
  - destruct (lookup_lt_is_Some_2 sel (i + 1)) as [n Hn]; [lia|]. by rewrite Hn.
  - rewrite (lookup_ge_None_2 sel (i + 1)) by lia. done.
Qed.

Lemma connect_analysts_ok logic sel i rest g g' :
  connect_analysts logic sel i rest g = Ok g' ->
  nodes g' = nodes g
  /\ branches g' = branches g ++ (stage_branch <$> rest)
  /\ (forall e, e ∈ edges g' <-> e ∈ edges g \/ e ∈ stage_edges sel i rest)
  /\ Forall (fun k => is_ok (getattr_logic ("should_continue_" +:+ k))) rest
  /\ (NoDup (branches g).*1 -> NoDup (branches g').*1)
  /\ (NoDup (edges g) -> NoDup (edges g')).
Proof.
  revert i g. induction rest as [|k rest IH]; intros i g H; simpl in H.
  - injection H as <-. simpl. rewrite app_nil_r. split_and!; try done.
    intros e. rewrite elem_of_nil. tauto.
  - bind_inv H as p Ha. bind_inv H as g1 H1.
    bind_inv H as g2 H2. rewrite clear_edge_next_hop in H.
    bind_inv H as g3 H3.
    apply add_conditional_edges_ok_inv in H1 as (Hfresh & ->).
    apply add_edge_ok_inv in H2 as (_ & _ & ->).
    apply add_edge_ok_inv in H3 as (_ & _ & ->).
    apply IH in H as (N & B & E & F & D & DE). simpl in *.
    rewrite (getattr_logic_name _ _ Ha) in *.
    split_and!.
    + done.
    + rewrite B, <- app_assoc. simpl. unfold stage_branch at 2.
      by rewrite (stage_predicate_getattr _ _ Ha).
    + intros e. rewrite E, !elem_of_set_add, !elem_of_cons. tauto.
    + constructor; [by exists p | done].
    + intros Hnd. apply D. rewrite fmap_app. apply NoDup_app. split_and!.
      * done.
      * intros x Hx Hx'. apply list_elem_of_singleton in Hx'. by subst.
      * apply NoDup_singleton.
    + intros Hnd. by apply DE, NoDup_set_add, NoDup_set_add.
Qed.

(** ** Compiling *)

Lemma validate_ok_inv (g g' : StateGraph) :
  validate g = Ok g' ->
  g' = g
  /\ (forall s, s ∈ all_sources g -> s ∈ node_names g \/ s = START)
  /\ (forall t, t ∈ all_targets g -> t ∈ node_names g \/ t = END).
Proof.
  unfold validate.
  destruct (list_find _ (all_sources g)) as [[? ?]|] eqn:Hs; [discriminate|].
  case_decide; [|discriminate].
  destruct (list_find _ (all_targets g)) as [[? ?]|] eqn:Ht; [discriminate|].
  intros [= <-]. apply list_find_None in Hs, Ht.
  rewrite Forall_forall in Hs, Ht. split_and!; [done| |].
  - intros s Hin. specialize (Hs s Hin). simpl in Hs.
    destruct (decide (s ∈ node_names g \/ s = START)); tauto.
  - intros t Hin. specialize (Ht t Hin). simpl in Ht.
    destruct (decide (t ∈ node_names g \/ t = END)); tauto.
Qed.

Lemma add_edge_ok (s t : string) (g g' : StateGraph) :
  add_edge s t g = Ok g' ->
  nodes g' = nodes g /\ branches g' = branches g
  /\ (forall e, e ∈ edges g' <-> e = (s, t) \/ e ∈ edges g)
  /\ (NoDup (edges g) -> NoDup (edges g')).
Proof.
  intros H. apply add_edge_ok_inv in H as (_ & _ & ->). simpl.
  split_and!; [done..| |apply NoDup_set_add]. intros e. apply elem_of_set_add.
Qed.

Lemma add_conditional_edges_ok (s : string) (p : predicate)
    (m : list (string * string)) (g g' : StateGraph) :
  add_conditional_edges s p m g = Ok g' ->
  nodes g' = nodes g /\ edges g' = edges g
  /\ branches g' = branches g ++ [((s, predicate_name p), MkBranch p m)]
  /\ (NoDup (branches g).*1 -> NoDup (branches g').*1).
Proof.
  intros H. apply add_conditional_edges_ok_inv in H as (Hfresh & ->). simpl.
  split_and!; [done..|]. intros Hnd. rewrite fmap_app. apply NoDup_app.
  split_and!; [done| |apply NoDup_singleton].
  intros x Hx Hx'. apply list_elem_of_singleton in Hx'. by subst.
Qed.

(** ** What an accepted selection has built *)

Lemma setup_graph_ok_inv mods reg self sel g :
  setup_graph mods reg self sel = Ok g ->
  sel <> []
  /\ node_names g
     = flat_map stage_nodes (keys_after (reg_analysts reg) [] sel) ++ fixed_nodes
  /\ names_ok (node_names g)
  /\ branches g = (stage_branch <$> sel) ++ fixed_branches
  /\ NoDup (branches g).*1
  /\ (forall e, e ∈ edges g <-> e ∈ expected_edges sel)
  /\ NoDup (edges g)
  /\ Forall (fun k => is_ok (getattr_logic ("should_continue_" +:+ k))) sel
  /\ validate g = Ok g.
Proof.
  unfold setup_graph. intros H.
  case_decide as Hlen; [discriminate|]. cbv zeta in H.
  bind_inv H as df Hdf. bind_inv H as d Hd.
  do 16 (let x := fresh "x" in let Hx := fresh "Hx" in bind_inv H as x Hx).
  apply create_analyst_nodes_keys in Hd as (_ & _ & Hkeys); [|done..].
  simpl in Hkeys. clear dependent mods.
  bind_inv H as w0 H0.
  bind_inv H as w1 H1. bind_inv H as w2 H2. bind_inv H as w3 H3.
  bind_inv H as w4 H4. bind_inv H as w5 H5. bind_inv H as w6 H6.
  bind_inv H as w7 H7. bind_inv H as w8 H8.
  bind_inv H as k0 Hk0. bind_inv H as w9 H9. bind_inv H as wc Hc.
  bind_inv H as b1 Hb1. bind_inv H as b2 Hb2.
  bind_inv H as e1 He1. bind_inv H as e2 He2.
  bind_inv H as b3 Hb3. bind_inv H as b4 Hb4. bind_inv H as b5 Hb5.
  bind_inv H as e3 He3.
  unfold compile in H. pose proof (validate_ok_inv _ _ H) as (-> & _ & _).
  apply add_analyst_nodes_ok in H0 as (N0 & E0 & B0 & W0).
  apply add_node_ok_names in H1 as (N1 & E1 & B1 & W1).
  apply add_node_ok_names in H2 as (N2 & E2 & B2 & W2).
  apply add_node_ok_names in H3 as (N3 & E3 & B3 & W3).
  apply add_node_ok_names in H4 as (N4 & E4 & B4 & W4).
  apply add_node_ok_names in H5 as (N5 & E5 & B5 & W5).
  apply add_node_ok_names in H6 as (N6 & E6 & B6 & W6).
  apply add_node_ok_names in H7 as (N7 & E7 & B7 & W7).
  apply add_node_ok_names in H8 as (N8 & E8 & B8 & W8).
  apply add_edge_ok in H9 as (N9 & B9 & E9 & D9).
  apply connect_analysts_ok in Hc as (Nc & Bc & Ec & Fc & Dc & DEc).
  apply add_conditional_edges_ok in Hb1 as (Nb1 & Eb1 & Bb1 & Db1).
  apply add_conditional_edges_ok in Hb2 as (Nb2 & Eb2 & Bb2 & Db2).
  apply add_edge_ok in He1 as (Ne1 & Be1 & Ee1 & De1).
  apply add_edge_ok in He2 as (Ne2 & Be2 & Ee2 & De2).
  apply add_conditional_edges_ok in Hb3 as (Nb3 & Eb3 & Bb3 & Db3).
  apply add_conditional_edges_ok in Hb4 as (Nb4 & Eb4 & Bb4 & Db4).
  apply add_conditional_edges_ok in Hb5 as (Nb5 & Eb5 & Bb5 & Db5).
  apply add_edge_ok in He3 as (Ne3 & Be3 & Ee3 & De3).
  assert (Hnames8 : node_names w8
     = flat_map stage_nodes (keys_after (reg_analysts reg) [] sel) ++ fixed_nodes).
  { rewrite N8, N7, N6, N5, N4, N3, N2, N1, N0, Hkeys. simpl.
    unfold fixed_nodes. by rewrite <- !app_assoc. }
  assert (Hnodes : node_names e3 = node_names w8).
  { unfold node_names. congruence. }
  assert (Hbr9 : branches w9 = []).
  { rewrite B9, B8, B7, B6, B5, B4, B3, B2, B1, B0. done. }
  assert (Hed8 : edges w8 = []).
  { rewrite E8, E7, E6, E5, E4, E3, E2, E1, E0. done. }
  split_and!.
  - intros ->. done.
  - by rewrite Hnodes.
  - rewrite Hnodes. apply W8, W7, W6, W5, W4, W3, W2, W1, W0.
    unfold names_ok, new_graph, node_names; simpl.
    split_and!; [constructor | apply not_elem_of_nil..].
  - rewrite Be3, Bb5, Bb4, Bb3, Be2, Be1, Bb2, Bb1, Bc, Hbr9. simpl.
    unfold fixed_branches. by rewrite <- !app_assoc.
  - rewrite Be3. apply Db5, Db4, Db3. rewrite Be2, Be1. apply Db2, Db1, Dc.
    rewrite Hbr9. constructor.
  - intros e. rewrite Ee3, Eb5, Eb4, Eb3, Ee2, Ee1, Eb2, Eb1, Ec, E9, Hed8.
    unfold expected_edges, first_analyst, fixed_edges.
    destruct (sel !! 0%nat) as [k|] eqn:Hk; [|discriminate].
    injection Hk0 as ->. simpl.
    rewrite elem_of_cons, elem_of_app, !elem_of_cons, !elem_of_nil. tauto.
  - apply De3. rewrite Eb5, Eb4, Eb3. apply De2, De1. rewrite Eb2, Eb1.
    apply DEc, D9. rewrite Hed8. constructor.
  - done.
  - done.
Qed.

Lemma elem_of_flat_map {A B : Type} (f : A -> list B) (l : list A) (y : B) :
  y ∈ flat_map f l <-> exists x, x ∈ l /\ y ∈ f x.
Proof.
  rewrite list_elem_of_In, in_flat_map. split.
  - intros (x & Hx & Hy). exists x. by rewrite !list_elem_of_In.
  - intros (x & Hx & Hy). exists x. by rewrite <- !list_elem_of_In.
Qed.

Lemma NoDup_flat_map_owner {A B : Type} (f : A -> list B) (l : list A)
    (x x' : A) (y : B) :
  NoDup (flat_map f l) -> x ∈ l -> x' ∈ l -> y ∈ f x -> y ∈ f x' -> x = x'.
Proof.
  induction l as [|a l IH]; simpl; intros Hnd Hx Hx' Hy Hy'.
  - by apply elem_of_nil in Hx.
  - apply NoDup_app in Hnd as (_ & Hdisj & Hnd).
    apply elem_of_cons in Hx as [->|Hx]; apply elem_of_cons in Hx' as [->|Hx'].
    + done.
    + exfalso. apply (Hdisj y Hy). apply elem_of_flat_map. eauto.
    + exfalso. apply (Hdisj y Hy'). apply elem_of_flat_map. eauto.
    + by apply IH.
Qed.

Lemma stage_edges_tools (sel : list string) (i : nat) (rest : list string)
    (k : string) :
  k ∈ rest -> (tools_name k, analyst_name k) ∈ stage_edges sel i rest.
Proof.
  revert i. induction rest as [|k' rest IH]; intros i Hk; simpl.
  - by apply elem_of_nil in Hk.
  - apply elem_of_cons in Hk as [->|Hk]; [left|].
    do 2 right. by apply IH.
Qed.

Lemma stage_branch_key (sel : list string) :
  (stage_branch <$> sel).*1
  = (fun k => (analyst_name k, "should_continue_" +:+ k)) <$> sel.
Proof. rewrite <- list_fmap_compose. done. Qed.

(** A selection that [setup_graph] accepts has no duplicates and names
    registered analysts only; the graph it returns is then determined by
    the selection. *)
Lemma setup_graph_shape mods reg self sel g :
  setup_graph mods reg self sel = Ok g ->
  sel <> [] /\ NoDup sel /\ Forall (registered (reg_analysts reg)) sel
  /\ node_names g = flat_map stage_nodes sel ++ fixed_nodes
  /\ names_ok (node_names g)
  /\ branches g = (stage_branch <$> sel) ++ fixed_branches
  /\ (forall e, e ∈ edges g <-> e ∈ expected_edges sel)
  /\ NoDup (edges g)
  /\ Forall (fun k => is_ok (getattr_logic ("should_continue_" +:+ k))) sel.
Proof.
  intros H. apply setup_graph_ok_inv in H
    as (Hne & Hnames & Hok & Hbr & Hnd & Hed & Hnde & Hattr & Hval).
  apply validate_ok_inv in Hval as (_ & Hsrc & _).
  assert (Hsel : NoDup sel).
  { rewrite Hbr, fmap_app in Hnd. apply NoDup_app in Hnd as (Hnd & _).
    rewrite stage_branch_key in Hnd. by apply NoDup_fmap_1 in Hnd. }
  assert (Hreg : Forall (registered (reg_analysts reg)) sel).
  { apply Forall_forall. intros k Hk.
    assert (Hin : tools_name k ∈ all_sources g).
    { unfold all_sources. apply elem_of_app. left.
      apply (list_elem_of_fmap_2' fst _ (tools_name k, analyst_name k)); [|done].
      apply Hed. unfold expected_edges. right. apply elem_of_app. left.
      by apply stage_edges_tools. }
    apply Hsrc in Hin as [Hin|Hin]; [|discriminate Hin].
    rewrite Hnames in Hin. apply elem_of_app in Hin as [Hin|Hin].
    - apply elem_of_flat_map in Hin as (k' & Hk' & Hin).
      apply tools_name_not_stage in Hin as ->.
      unfold keys_after in Hk'. apply elem_of_foldl_set_add in Hk' as [Hk'|Hk'].
      + by apply elem_of_nil in Hk'.
      + by apply list_elem_of_filter in Hk' as [? _].
    - by apply tools_name_not_fixed in Hin. }
  assert (Hkeys : keys_after (reg_analysts reg) [] sel = sel).
  { unfold keys_after. replace (filter (registered (reg_analysts reg)) sel) with sel.
    - rewrite foldl_set_add_fresh; [done|done|]. intros ? _. apply not_elem_of_nil.
    - clear -Hreg. induction Hreg as [|k l Hk Hl IH]; [done|].
      rewrite filter_cons_True by done. by rewrite <- IH. }
  rewrite Hkeys in Hnames. rewrite Hnames in Hok |- *. done.
Qed.

(** ** Edges and branches that leave a node *)

Lemma elem_of_edge_targets (g : StateGraph) (n t : string) :
  t ∈ edge_targets g n <-> (n, t) ∈ edges g.
Proof.
  unfold edge_targets. rewrite list_elem_of_fmap. split.
  - intros ([n' t'] & -> & Hin). apply list_elem_of_filter in Hin as [Hn Hin].
    simpl in Hn. by subst.
  - intros Hin. exists (n, t). split; [done|]. by apply list_elem_of_filter.
Qed.

Lemma NoDup_edge_targets (g : StateGraph) (n : string) :
  NoDup (edges g) -> NoDup (edge_targets g n).
Proof.
  intros Hnd. unfold edge_targets. apply NoDup_fmap_2_strong.
  - intros [a b] [a' b'] Ha Hb Heq. simpl in Heq. subst b'.
    apply list_elem_of_filter in Ha as [Ha _], Hb as [Hb _]. simpl in *. by subst.
  - by apply NoDup_filter.
Qed.

Lemma NoDup_singleton_eq {A : Type} (l : list A) (a : A) :
  NoDup l -> (forall x, x ∈ l <-> x = a) -> l = [a].
Proof.
  intros Hnd Hl. destruct l as [|x l].
  - exfalso. eapply not_elem_of_nil. by apply Hl.
  - assert (x = a) as -> by (apply Hl; left).
    apply NoDup_cons in Hnd as [Hx Hnd]. destruct l as [|y l]; [done|].
    assert (y = a) as -> by (apply Hl; right; left).
    exfalso. apply Hx. left.
Qed.

Lemma edge_targets_unique (g : StateGraph) (n t : string) :
  NoDup (edges g) -> (forall t', (n, t') ∈ edges g <-> t' = t) ->
  edge_targets g n = [t].
Proof.
  intros Hnd H. apply NoDup_singleton_eq; [by apply NoDup_edge_targets|].
  intros x. by rewrite elem_of_edge_targets.
Qed.

Lemma edge_targets_none (g : StateGraph) (n : string) :
  (forall t', (n, t') ∉ edges g) -> edge_targets g n = [].
Proof.
  intros H. apply elem_of_nil_inv. intros x Hx.
  apply elem_of_edge_targets in Hx. by apply H in Hx.
Qed.

Lemma elem_of_stage_edges (sel : list string) (i : nat) (rest : list string)
    (n t : string) :
  (n, t) ∈ stage_edges sel i rest <->
  exists j k, rest !! j = Some k
    /\ ((n = tools_name k /\ t = analyst_name k)
        \/ (n = clear_name k /\ t = next_hop sel (i + j))).
Proof.
  revert i. induction rest as [|k rest IH]; intros i; simpl.
  - rewrite elem_of_nil. split; [done|]. intros (j & k & Hj & _). done.
  - rewrite !elem_of_cons, IH. split.
    + intros [[= -> ->]|[[= -> ->]|(j & k' & Hj & H)]].
      * exists 0%nat, k. split; [done|]. by left.
      * exists 0%nat, k. split; [done|]. right. by rewrite Nat.add_0_r.
      * exists (S j), k'. split; [done|].
        by replace (i + S j)%nat with (S i + j)%nat by lia.
    + intros ([|j] & k' & Hj & H).
      * injection Hj as ->. rewrite Nat.add_0_r in H.
        destruct H as [[-> ->]|[-> ->]]; [by left | right; by left].
      * do 2 right. exists j, k'. split; [done|].
        by replace (S i + j)%nat with (i + S j)%nat by lia.
Qed.

Section Accepted.

Variables (mods : gmap string (list string)) (reg : registry)
  (self : GraphSetup) (sel : list string) (g : StateGraph).
Hypothesis Hacc : setup_graph mods reg self sel = Ok g.

Lemma accepted_names_ok : names_ok (flat_map stage_nodes sel ++ fixed_nodes).
Proof.
  apply setup_graph_shape in Hacc as (_ & _ & _ & Hn & Hok & _). by rewrite <- Hn.
Qed.

Lemma stage_node_not_fixed (k x : string) :
  k ∈ sel -> x ∈ stage_nodes k -> x ∉ fixed_nodes.
Proof.
  intros Hk Hx. destruct accepted_names_ok as (Hnd & _).
  apply NoDup_app in Hnd as (_ & Hdisj & _). apply Hdisj.
  apply elem_of_flat_map. eauto.
Qed.

Lemma stage_node_owner (k k' x : string) :
  k ∈ sel -> k' ∈ sel -> x ∈ stage_nodes k -> x ∈ stage_nodes k' -> k = k'.
Proof.
  intros Hk Hk' Hx Hx'. destruct accepted_names_ok as (Hnd & _).
  apply NoDup_app in Hnd as (Hnd & _).
  by apply (NoDup_flat_map_owner stage_nodes sel k k' x).
Qed.

Lemma stage_nodes_NoDup (k : string) : k ∈ sel -> NoDup (stage_nodes k).
Proof.
  intros Hk. destruct accepted_names_ok as (Hnd & _).
  apply NoDup_app in Hnd as (Hnd & _).
  apply list_elem_of_split in Hk as (l1 & l2 & ->).
  rewrite flat_map_app in Hnd. apply NoDup_app in Hnd as (_ & _ & Hnd).
  cbn [flat_map] in Hnd. by apply NoDup_app in Hnd as (Hnd & _).
Qed.

Lemma analyst_not_clear (k k' : string) :
  k ∈ sel -> k' ∈ sel -> analyst_name k <> clear_name k'.
Proof.
  intros Hk Hk' Heq.
  assert (k = k') as <-.
  { apply (stage_node_owner k k' (analyst_name k)); [done..| |].
    - left.
    - rewrite Heq. right; left. }
  apply stage_nodes_NoDup in Hk. unfold stage_nodes in Hk.
  apply NoDup_cons in Hk as [Hk _]. apply Hk. rewrite Heq. left.
Qed.

Lemma analyst_name_inj_sel (k k' : string) :
  k ∈ sel -> k' ∈ sel -> analyst_name k = analyst_name k' -> k = k'.
Proof.
  intros Hk Hk' Heq. apply (stage_node_owner k k' (analyst_name k)); [done..| |].
  - left.
  - rewrite Heq. left.
Qed.

Lemma clear_name_inj_sel (k k' : string) :
  k ∈ sel -> k' ∈ sel -> clear_name k = clear_name k' -> k = k'.
Proof.
  intros Hk Hk' Heq. apply (stage_node_owner k k' (clear_name k)); [done..| |].
  - right; left.
  - rewrite Heq. right; left.
Qed.

Lemma accepted_edges (e : string * string) :
  e ∈ edges g <-> e ∈ expected_edges sel.
Proof. apply setup_graph_shape in Hacc as (_ & _ & _ & _ & _ & _ & He & _). apply He. Qed.

Lemma accepted_edges_NoDup : NoDup (edges g).
Proof. by apply setup_graph_shape in Hacc as (_ & _ & _ & _ & _ & _ & _ & He & _). Qed.

Lemma accepted_branches : branches g = (stage_branch <$> sel) ++ fixed_branches.
Proof. by apply setup_graph_shape in Hacc as (_ & _ & _ & _ & _ & Hb & _). Qed.

(** The edges that leave one of the eight fixed nodes are among the three
    that are added after the loop. *)
Lemma edges_from_fixed (n t : string) :
  n ∈ fixed_nodes -> (n, t) ∈ edges g <-> (n, t) ∈ fixed_edges.
Proof.
  intros Hn. rewrite accepted_edges. unfold expected_edges.
  rewrite elem_of_cons, elem_of_app, elem_of_stage_edges. split; [|tauto].
  intros [[= -> _]|[(j & k & Hj & H)|H]]; [| |done].
  - exfalso. unfold fixed_nodes, START in Hn. not_listed Hn.
  - exfalso. apply list_elem_of_lookup_2 in Hj.
    destruct H as [[-> _]|[-> _]].
    + by apply tools_name_not_fixed in Hn.
    + by apply clear_name_not_fixed in Hn.
Qed.

Lemma stage_branches_from_fixed (n : string) :
  n ∈ fixed_nodes -> filter (fun b => b.1.1 = n) (stage_branch <$> sel) = [].
Proof.
  intros Hn. apply elem_of_nil_inv. intros b Hb.
  apply list_elem_of_filter in Hb as [Hsrc Hb].
  apply list_elem_of_fmap in Hb as (k & -> & Hk). simpl in Hsrc. subst n.
  revert Hn. apply (stage_node_not_fixed k); [done | left].
Qed.

Lemma branches_from_fixed (n : string) :
  n ∈ fixed_nodes ->
  branches_from g n = filter (fun b => b.1.1 = n) fixed_branches.
Proof.
  intros Hn. unfold branches_from.
  by rewrite accepted_branches, filter_app, stage_branches_from_fixed.
Qed.

End Accepted.

Ltac fixed_edge_from :=
  let H := fresh "H" in
  unfold fixed_edges; intros ?; rewrite !elem_of_cons, elem_of_nil;
  split;
  [ intros H; repeat (destruct H as [H|H]; [by inversion H|]); done
  | intros ->; tauto ].

(** C7: in every compiled graph the Research Manager has the Trader as its
    only successor, the Trader the Risky Analyst, and the Risk Judge the
    terminal node, each by a plain edge and with no branch, so in every
    state. *)
Theorem manager_trader_judge_unconditional :
  forall mods reg self sel g,
    setup_graph mods reg self sel = Ok g ->
    (edge_targets g "Research Manager" = ["Trader"]
     /\ branches_from g "Research Manager" = [])
    /\ (edge_targets g "Trader" = ["Risky Analyst"]
        /\ branches_from g "Trader" = [])
    /\ (edge_targets g "Risk Judge" = [END]
        /\ branches_from g "Risk Judge" = [])
    /\ forall logic st,
         successors logic g st "Research Manager" = ["Trader"]
         /\ successors logic g st "Trader" = ["Risky Analyst"]
         /\ successors logic g st "Risk Judge" = [END].
Proof.
  intros mods reg self sel g Hacc.
  assert (HRM : "Research Manager" ∈ fixed_nodes) by (by apply (bool_decide_unpack _); vm_compute).
  assert (HT : "Trader" ∈ fixed_nodes) by (by apply (bool_decide_unpack _); vm_compute).
  assert (HRJ : "Risk Judge" ∈ fixed_nodes) by (by apply (bool_decide_unpack _); vm_compute).
  pose proof (accepted_edges_NoDup _ _ _ _ _ Hacc) as Hnd.
  assert (E1 : edge_targets g "Research Manager" = ["Trader"]).
  { apply edge_targets_unique; [done|]. intros t.
    rewrite (edges_from_fixed _ _ _ _ _ Hacc) by done. revert t. fixed_edge_from. }
  assert (E2 : edge_targets g "Trader" = ["Risky Analyst"]).
  { apply edge_targets_unique; [done|]. intros t.
    rewrite (edges_from_fixed _ _ _ _ _ Hacc) by done. revert t. fixed_edge_from. }
  assert (E3 : edge_targets g "Risk Judge" = [END]).
  { apply edge_targets_unique; [done|]. intros t.
    rewrite (edges_from_fixed _ _ _ _ _ Hacc) by done. revert t. fixed_edge_from. }
  assert (B1 : branches_from g "Research Manager" = []).
  { by rewrite (branches_from_fixed _ _ _ _ _ Hacc). }
  assert (B2 : branches_from g "Trader" = []).
  { by rewrite (branches_from_fixed _ _ _ _ _ Hacc). }
  assert (B3 : branches_from g "Risk Judge" = []).
  { by rewrite (branches_from_fixed _ _ _ _ _ Hacc). }
  split_and!; try done.
  intros logic st. unfold successors. by rewrite E1, E2, E3, B1, B2, B3.
Qed.

Lemma route_two_ends (logic : ConditionalLogic) (st : AgentState)
    (p : predicate) (a b t : string) :
  route logic st (MkBranch p [(a, a); (b, b)]) = Some t -> t = a \/ t = b.
Proof.
  unfold route; simpl. repeat case_decide; intros [= <-]; tauto.
Qed.

(** C4: in every compiled graph nothing but one branch leaves each risk
    role, with the ends Safe Analyst / Risk Judge at the Risky Analyst,
    Neutral Analyst / Risk Judge at the Safe Analyst, and Risky Analyst /
    Risk Judge at the Neutral Analyst; so these are the only successors
    the roles can have, in the cycle risky, safe, neutral, risky. *)
Theorem risk_roles_cycle :
  forall mods reg self sel g,
    setup_graph mods reg self sel = Ok g ->
    (edge_targets g "Risky Analyst" = []
     /\ branches_from g "Risky Analyst"
        = [(("Risky Analyst", "should_continue_risk_analysis"),
            MkBranch should_continue_risk_analysis
              [("Safe Analyst", "Safe Analyst"); ("Risk Judge", "Risk Judge")])])
    /\ (edge_targets g "Safe Analyst" = []
        /\ branches_from g "Safe Analyst"
           = [(("Safe Analyst", "should_continue_risk_analysis"),
               MkBranch should_continue_risk_analysis
                 [("Neutral Analyst", "Neutral Analyst");
                  ("Risk Judge", "Risk Judge")])])
    /\ (edge_targets g "Neutral Analyst" = []
        /\ branches_from g "Neutral Analyst"
           = [(("Neutral Analyst", "should_continue_risk_analysis"),
               MkBranch should_continue_risk_analysis
                 [("Risky Analyst", "Risky Analyst");
                  ("Risk Judge", "Risk Judge")])])
    /\ forall logic st t,
         (t ∈ successors logic g st "Risky Analyst" ->
          t = "Safe Analyst" \/ t = "Risk Judge")
         /\ (t ∈ successors logic g st "Safe Analyst" ->
             t = "Neutral Analyst" \/ t = "Risk Judge")
         /\ (t ∈ successors logic g st "Neutral Analyst" ->
             t = "Risky Analyst" \/ t = "Risk Judge").
Proof.
  intros mods reg self sel g Hacc.
  assert (HR : "Risky Analyst" ∈ fixed_nodes)
    by (by apply (bool_decide_unpack _); vm_compute).
  assert (HS : "Safe Analyst" ∈ fixed_nodes)
    by (by apply (bool_decide_unpack _); vm_compute).
  assert (HN : "Neutral Analyst" ∈ fixed_nodes)
    by (by apply (bool_decide_unpack _); vm_compute).
  assert (E1 : edge_targets g "Risky Analyst" = []).
  { apply edge_targets_none. intros t.
    rewrite (edges_from_fixed _ _ _ _ _ Hacc) by done.
    unfold fixed_edges. intros H. not_listed H. }
  assert (E2 : edge_targets g "Safe Analyst" = []).
  { apply edge_targets_none. intros t.
    rewrite (edges_from_fixed _ _ _ _ _ Hacc) by done.
    unfold fixed_edges. intros H. not_listed H. }
  assert (E3 : edge_targets g "Neutral Analyst" = []).
  { apply edge_targets_none. intros t.
    rewrite (edges_from_fixed _ _ _ _ _ Hacc) by done.
    unfold fixed_edges. intros H. not_listed H. }
  pose proof (branches_from_fixed _ _ _ _ _ Hacc _ HR) as B1.
  pose proof (branches_from_fixed _ _ _ _ _ Hacc _ HS) as B2.
  pose proof (branches_from_fixed _ _ _ _ _ Hacc _ HN) as B3.
  split_and!; try done.
  intros logic st t. unfold successors. rewrite E1, E2, E3, B1, B2, B3.
  split_and!; intros H; apply list_elem_of_omap in H as (b & Hb & Hr);
    apply list_elem_of_singleton in Hb as ->; by apply route_two_ends in Hr.
Qed.

(** ** The nodes of a selected analyst *)

Lemma fixed_branch_source (b : (string * string) * Branch) :
  b ∈ fixed_branches -> b.1.1 ∈ fixed_nodes.
Proof.
  unfold fixed_branches. rewrite !elem_of_cons, elem_of_nil.
  intros H. repeat (destruct H as [->|H]; [by apply (bool_decide_unpack _); vm_compute|]).
  done.
Qed.

Lemma fixed_edge_source (n t : string) :
  (n, t) ∈ fixed_edges -> n ∈ fixed_nodes.
Proof.
  unfold fixed_edges. rewrite !elem_of_cons, elem_of_nil.
  intros H.
  repeat (destruct H as [[= -> ->]|H]; [by apply (bool_decide_unpack _); vm_compute|]).
  done.
Qed.

Lemma path_map_two (a b : string) :
  a <> b -> path_map_of_list [a; b] = [(a, a); (b, b)].
Proof.
  intros Hab. unfold path_map_of_list; simpl. by rewrite decide_False by done.
Qed.

Lemma filter_fmap_unique {A B : Type} `{EqDecision B} (src : A -> B)
    (f : string -> A) (l : list string) (k : string) :
  NoDup l -> k ∈ l ->
  (forall k', k' ∈ l -> src (f k') = src (f k) -> k' = k) ->
  filter (fun b => src b = src (f k)) (f <$> l) = [f k].
Proof.
  induction l as [|x l IH]; intros Hnd Hk Hinj.
  - by apply elem_of_nil in Hk.
  - apply NoDup_cons in Hnd as [Hx Hnd]. csimpl.
    apply elem_of_cons in Hk as [->|Hk].
    + rewrite filter_cons_True by done. f_equal.
      apply elem_of_nil_inv. intros b Hb.
      apply list_elem_of_filter in Hb as [Hsrc Hb].
      apply list_elem_of_fmap in Hb as (k' & -> & Hk').
      apply Hinj in Hsrc; [|by right]. by subst.
    + rewrite filter_cons_False.
      * apply IH; [done..|]. intros k' Hk'. apply Hinj. by right.
      * intros Hsrc. apply Hinj in Hsrc; [|left]. by subst.
Qed.

Section AcceptedStage.

Variables (mods : gmap string (list string)) (reg : registry)
  (self : GraphSetup) (sel : list string) (g : StateGraph).
Hypothesis Hacc : setup_graph mods reg self sel = Ok g.
Variable k : string.
Hypothesis Hk : k ∈ sel.

Lemma accepted_NoDup : NoDup sel.
Proof. by apply setup_graph_shape in Hacc as (_ & Hnd & _). Qed.

Lemma stage_node_not_START (x : string) : x ∈ stage_nodes k -> x <> START.
Proof.
  intros Hx ->. destruct (accepted_names_ok _ _ _ _ _ Hacc) as (_ & HS & _).
  apply HS, elem_of_app. left. apply elem_of_flat_map. eauto.
Qed.

(** The edges that leave a node of a selected analyst are recorded by the
    loop. *)
Lemma edges_from_stage (x t : string) :
  x ∈ stage_nodes k ->
  (x, t) ∈ edges g <->
  exists j k', sel !! j = Some k'
    /\ ((x = tools_name k' /\ t = analyst_name k')
        \/ (x = clear_name k' /\ t = next_hop sel j)).
Proof.
  intros Hx. rewrite (accepted_edges _ _ _ _ _ Hacc). unfold expected_edges.
  rewrite elem_of_cons, elem_of_app, elem_of_stage_edges. simpl.
  split; [|tauto].
  intros [[= -> _]|[H|H]]; [|done|].
  - by apply stage_node_not_START in Hx.
  - apply fixed_edge_source in H.
    by apply (stage_node_not_fixed _ _ _ _ _ Hacc k x) in H.
Qed.

Lemma tools_edge_targets : edge_targets g (tools_name k) = [analyst_name k].
Proof.
  apply edge_targets_unique; [by apply (accepted_edges_NoDup _ _ _ _ _ Hacc)|].
  intros t. rewrite edges_from_stage by (do 2 right; left). split.
  - intros (j & k' & Hj & [[Heq ->]|[Heq _]]).
    + by apply tools_name_inj in Heq as ->.
    + by apply tools_name_not_clear in Heq.
  - intros ->. apply list_elem_of_lookup_1 in Hk as [j Hj]. exists j, k. eauto.
Qed.

Lemma clear_edge_targets (i : nat) :
  sel !! i = Some k -> edge_targets g (clear_name k) = [next_hop sel i].
Proof.
  intros Hi.
  apply edge_targets_unique; [by apply (accepted_edges_NoDup _ _ _ _ _ Hacc)|].
  intros t. rewrite edges_from_stage by (right; left). split.
  - intros (j & k' & Hj & [[Heq _]|[Heq ->]]).
    + symmetry in Heq. by apply tools_name_not_clear in Heq.
    + apply (clear_name_inj_sel _ _ _ _ _ Hacc) in Heq;
        [|done|by eapply list_elem_of_lookup_2].
      subst k'. by rewrite (NoDup_lookup sel i j k accepted_NoDup Hi Hj).
  - intros ->. exists i, k. eauto.
Qed.

Lemma analyst_edge_targets : edge_targets g (analyst_name k) = [].
Proof.
  apply edge_targets_none. intros t. rewrite edges_from_stage by left.
  intros (j & k' & Hj & [[Heq _]|[Heq _]]).
  - symmetry in Heq. by apply tools_name_not_analyst in Heq.
  - apply (analyst_not_clear _ _ _ _ _ Hacc) in Heq;
      [done|done|by eapply list_elem_of_lookup_2].
Qed.

Lemma fixed_branches_from_stage (x : string) :
  x ∈ stage_nodes k -> filter (fun b => b.1.1 = x) fixed_branches = [].
Proof.
  intros Hx. apply elem_of_nil_inv. intros b Hb.
  apply list_elem_of_filter in Hb as [Hsrc Hb].
  apply fixed_branch_source in Hb. rewrite Hsrc in Hb.
  by apply (stage_node_not_fixed _ _ _ _ _ Hacc k x) in Hb.
Qed.

Lemma analyst_branches_from :
  branches_from g (analyst_name k) = [stage_branch k].
Proof.
  unfold branches_from.
  rewrite (accepted_branches _ _ _ _ _ Hacc), filter_app.
  rewrite fixed_branches_from_stage by left. rewrite app_nil_r.
  apply (filter_fmap_unique (fun b => b.1.1) stage_branch sel k);
    [apply accepted_NoDup | done |].
  intros k' Hk' Heq. simpl in Heq.
  by apply (analyst_name_inj_sel _ _ _ _ _ Hacc).
Qed.

Lemma no_branches_from (x : string) :
  x ∈ stage_nodes k -> x <> analyst_name k -> branches_from g x = [].
Proof.
  intros Hx Hne. unfold branches_from.
  rewrite (accepted_branches _ _ _ _ _ Hacc), filter_app.
  rewrite fixed_branches_from_stage by done. rewrite app_nil_r.
  apply elem_of_nil_inv. intros b Hb.
  apply list_elem_of_filter in Hb as [Hsrc Hb].
  apply list_elem_of_fmap in Hb as (k' & -> & Hk'). simpl in Hsrc.
  assert (k' = k) as ->.
  { apply (stage_node_owner _ _ _ _ _ Hacc k' k x); [done|done| |done].
    rewrite <- Hsrc. left. }
  by apply Hne.
Qed.

Lemma tools_branches_from : branches_from g (tools_name k) = [].
Proof.
  apply no_branches_from; [do 2 right; left | apply tools_name_not_analyst].
Qed.

Lemma clear_branches_from : branches_from g (clear_name k) = [].
Proof.
  apply no_branches_from; [right; left|].
  intros Heq. symmetry in Heq.
  by apply (analyst_not_clear _ _ _ _ _ Hacc) in Heq.
Qed.

Lemma stage_path_map :
  path_map_of_list [tools_name k; clear_name k]
  = [(tools_name k, tools_name k); (clear_name k, clear_name k)].
Proof. apply path_map_two, tools_name_not_clear. Qed.

End AcceptedStage.

Lemma stage_predicate_stage (k : string) :
  k ∈ stage_identifiers -> stage_predicate k = should_continue_stage k.
Proof.
  unfold stage_identifiers. rewrite !elem_of_cons, elem_of_nil.
  intros H. repeat (destruct H as [->|H]; [by vm_compute|]). done.
Qed.

Lemma route_tool_continue (logic : ConditionalLogic) (st : AgentState)
    (k : string) :
  route logic st
    (MkBranch (should_continue_stage k)
       [(tools_name k, tools_name k); (clear_name k, clear_name k)])
  = Some (tool_continue k st).
Proof.
  unfold route; simpl. unfold tool_continue.
  destruct (pending_tool_calls st).
  - by rewrite decide_True.
  - rewrite decide_False by (intros H; symmetry in H; by apply tools_name_not_clear in H).
    by rewrite decide_True.
Qed.

(** C5: for every selected analyst, nothing but one branch leaves the
    analyst node; its ends are the analyst's own tool node and own
    message-clearing node, and for a stage identifier the branch is decided
    by tool-continue: the tool node when the last message requests tool
    calls, the message-clearing node otherwise.  The tool node has the one
    edge back to its analyst node and no branch. *)
Theorem analyst_tool_loop :
  forall mods reg self sel g k,
    setup_graph mods reg self sel = Ok g ->
    k ∈ sel ->
    (edge_targets g (analyst_name k) = []
     /\ branches_from g (analyst_name k)
        = [((analyst_name k, "should_continue_" +:+ k),
            MkBranch (stage_predicate k)
              [(tools_name k, tools_name k); (clear_name k, clear_name k)])])
    /\ (k ∈ stage_identifiers ->
        stage_predicate k = should_continue_stage k
        /\ forall logic st,
             successors logic g st (analyst_name k)
             = [if pending_tool_calls st then tools_name k else clear_name k])
    /\ (edge_targets g (tools_name k) = [analyst_name k]
        /\ branches_from g (tools_name k) = []
        /\ forall logic st,
             successors logic g st (tools_name k) = [analyst_name k]).
Proof.
  intros mods reg self sel g k Hacc Hk.
  pose proof (analyst_edge_targets _ _ _ _ _ Hacc k Hk) as E1.
  pose proof (analyst_branches_from _ _ _ _ _ Hacc k Hk) as B1.
  pose proof (tools_edge_targets _ _ _ _ _ Hacc k Hk) as E2.
  pose proof (tools_branches_from _ _ _ _ _ Hacc k Hk) as B2.
  unfold stage_branch in B1. rewrite stage_path_map in B1.
  split_and!; try done.
  - intros Hstage. pose proof (stage_predicate_stage k Hstage) as Hp.
    split; [done|]. intros logic st. unfold successors.
    rewrite E1, B1, Hp. csimpl. by rewrite route_tool_continue.
  - intros logic st. unfold successors. by rewrite E2, B2.
Qed.

(** C6: for every position [i] of an accepted selection, the
    message-clearing node of the analyst at [i] has exactly one edge and no
    branch; the edge leads to the analyst node of the analyst at [i + 1],
    and to the Bull Researcher when [i] is the last position. *)
Theorem clear_routes_to_next :
  forall mods reg self sel g i k,
    setup_graph mods reg self sel = Ok g ->
    sel !! i = Some k ->
    let target :=
      match sel !! (i + 1)%nat with
      | Some next => analyst_name next
      | None => "Bull Researcher"
      end in
    edge_targets g (clear_name k) = [target]
    /\ branches_from g (clear_name k) = []
    /\ (forall logic st, successors logic g st (clear_name k) = [target])
    /\ ((i + 1)%nat = length sel -> target = "Bull Researcher").
Proof.
  intros mods reg self sel g i k Hacc Hi target.
  assert (Hk : k ∈ sel) by (by eapply list_elem_of_lookup_2).
  pose proof (clear_edge_targets _ _ _ _ _ Hacc k Hk i Hi) as E.
  pose proof (clear_branches_from _ _ _ _ _ Hacc k Hk) as B.
  fold (next_hop sel i) in target. split_and!; try done.
  - intros logic st. unfold successors. by rewrite E, B.
  - intros Hlast. unfold target, next_hop.
    by rewrite (lookup_ge_None_2 sel (i + 1)) by lia.
Qed.

(** ** The nodes of a compiled graph *)

Lemma filter_registered_all (amap : gmap string string) (sel : list string) :
  Forall (registered amap) sel -> filter (registered amap) sel = sel.
Proof.
  induction 1 as [|k l Hk Hl IH]; [done|].
  rewrite filter_cons_True by done. by rewrite IH.
Qed.

Lemma length_flat_map_stage_nodes (l : list string) :
  length (flat_map stage_nodes l) = (3 * length l)%nat.
Proof. induction l as [|k l IH]; simpl; lia. Qed.

(** C10: the node names of every compiled graph are the three names of
    each selected analyst that the registry knows, followed by the eight
    fixed names, without repetition; and the node-creation loop passes over
    a key that the registry does not know without raising and without
    touching its dictionaries. *)
Theorem compiled_nodes :
  forall mods reg self sel g,
    setup_graph mods reg self sel = Ok g ->
    node_names g
    = flat_map stage_nodes (filter (registered (reg_analysts reg)) sel)
      ++ ["Bull Researcher"; "Bear Researcher"; "Research Manager"; "Trader";
          "Risky Analyst"; "Neutral Analyst"; "Safe Analyst"; "Risk Judge"]
    /\ NoDup (node_names g)
    /\ length (node_names g)
       = (3 * length (filter (registered (reg_analysts reg)) sel) + 8)%nat
    /\ forall delete_factory key rest d,
         reg_analysts reg !! key = None ->
         create_analyst_nodes mods (reg_analysts reg) self delete_factory
           (key :: rest) d
         = create_analyst_nodes mods (reg_analysts reg) self delete_factory
             rest d.
Proof.
  intros mods reg self sel g Hacc.
  apply setup_graph_shape in Hacc
    as (_ & _ & Hreg & Hnames & (Hnd & _) & _).
  rewrite (filter_registered_all _ _ Hreg). split_and!.
  - done.
  - done.
  - rewrite Hnames, length_app, length_flat_map_stage_nodes. simpl. lia.
  - intros delete_factory key rest d Hkey. simpl. by rewrite Hkey.
Qed.

(** ** Selections that are turned down *)


(** A repeated identifier is turned down by the builder, an identifier
    without a method on the conditional logic by the [getattr]. *)
Lemma repeated_selection_is_value_error :
  setup_graph repo_modules sample_registry (sample_setup default_logic)
    ["market"; "market"]
  = Raise (ValueError
      "Branch with name `should_continue_market` already exists for node `Market Analyst`").
Proof. vm_compute. reflexivity. Qed.

Lemma unknown_selection_is_attribute_error :
  setup_graph repo_modules sample_registry (sample_setup default_logic)
    ["market"; "crypto"]
  = Raise (AttributeError
      "'ConditionalLogic' object has no attribute 'should_continue_crypto'").
Proof. vm_compute. reflexivity. Qed.

(** A selected analyst without an entry in [self.tool_nodes] is turned
    down by [add_node]. *)
Lemma missing_tool_node_is_runtime_error :
  setup_graph repo_modules sample_registry (Setup ∅ default_logic) ["market"]
  = Raise (RuntimeError
      "Expected a function or Runnable action in add_node. Received None.").
Proof. vm_compute. reflexivity. Qed.

(** ** Runs with no debate round *)

Section ZeroRounds.

Variables (mods : gmap string (list string)) (reg : registry)
  (self : GraphSetup) (sel : list string) (g : StateGraph).
Hypothesis Hacc : setup_graph mods reg self sel = Ok g.
Variable logic : ConditionalLogic.
Hypothesis Hzero : max_debate_rounds logic = 0%Z.

Lemma analyst_not_bear (k : string) :
  k ∈ sel -> analyst_name k <> "Bear Researcher".
Proof.
  intros Hk Heq.
  apply (stage_node_not_fixed _ _ _ _ _ Hacc k (analyst_name k)); [done|left|].
  rewrite Heq. by apply (bool_decide_unpack _); vm_compute.
Qed.

Lemma bull_successors (st : AgentState) :
  successors logic g st "Bull Researcher" = ["Research Manager"].
Proof.
  assert (HB : "Bull Researcher" ∈ fixed_nodes)
    by (by apply (bool_decide_unpack _); vm_compute).
  unfold successors. rewrite (branches_from_fixed _ _ _ _ _ Hacc _ HB).
  rewrite edge_targets_none.
  - change (filter _ fixed_branches) with
      [(("Bull Researcher", "should_continue_debate"),
        MkBranch should_continue_debate
          [("Bear Researcher", "Bear Researcher");
           ("Research Manager", "Research Manager")])].
    csimpl. unfold route; simpl. unfold debate_continue.
    rewrite Hzero. done.
  - intros t. rewrite (edges_from_fixed _ _ _ _ _ Hacc) by done.
    unfold fixed_edges. intros H. not_listed H.
Qed.

Lemma successor_not_bear (st : AgentState) (n t : string) :
  n <> "Bear Researcher" -> t ∈ successors logic g st n ->
  t <> "Bear Researcher".
Proof.
  intros Hn Ht. unfold successors in Ht. apply elem_of_app in Ht as [Ht|Ht].
  - apply elem_of_edge_targets, (accepted_edges _ _ _ _ _ Hacc) in Ht.
    pose proof Hacc as Hshape.
    apply setup_graph_shape in Hshape as (Hne & _).
    unfold expected_edges in Ht.
    apply elem_of_cons in Ht as [Ht|Ht]; [|apply elem_of_app in Ht as [Ht|Ht]].
    + injection Ht as _ ->. apply analyst_not_bear.
      unfold first_analyst. destruct sel as [|k l]; [done|]. left.
    + apply elem_of_stage_edges in Ht as (j & k & Hj & [[_ ->]|[_ ->]]).
      * apply analyst_not_bear. by eapply list_elem_of_lookup_2.
      * unfold next_hop. destruct (sel !! (0 + j + 1)%nat) as [k'|] eqn:Hk'.
        -- apply analyst_not_bear. by eapply list_elem_of_lookup_2.
        -- discriminate.
    + unfold fixed_edges in Ht. intros ->. not_listed Ht.
  - apply list_elem_of_omap in Ht as (b & Hb & Hr).
    apply list_elem_of_filter in Hb as [Hsrc Hb].
    rewrite (accepted_branches _ _ _ _ _ Hacc) in Hb.
    apply elem_of_app in Hb as [Hb|Hb].
    + apply list_elem_of_fmap in Hb as (k & -> & Hk).
      unfold stage_branch in Hr. simpl in Hr.
      rewrite path_map_two in Hr by apply tools_name_not_clear.
      apply route_two_ends in Hr. intros ->.
      assert (HBear : "Bear Researcher" ∈ fixed_nodes)
        by (by apply (bool_decide_unpack _); vm_compute).
      revert HBear. destruct Hr as [->| ->].
      * apply (stage_node_not_fixed _ _ _ _ _ Hacc k); [done|do 2 right; left].
      * apply (stage_node_not_fixed _ _ _ _ _ Hacc k); [done|right; left].
    + unfold fixed_branches in Hb. rewrite !elem_of_cons, elem_of_nil in Hb.
      destruct Hb as [->|[->|[->|[->|[->|[]]]]]]; simpl in Hsrc.
      * unfold route in Hr; simpl in Hr. unfold debate_continue in Hr.
        rewrite Hzero in Hr. simpl in Hr. by injection Hr as <-.
      * by subst n.
      * apply route_two_ends in Hr as [->| ->]; discriminate.
      * apply route_two_ends in Hr as [->| ->]; discriminate.
      * apply route_two_ends in Hr as [->| ->]; discriminate.
Qed.

Lemma run_never_bear (n : string) (trace : list (AgentState * string)) :
  n <> "Bear Researcher" -> is_run logic g n trace ->
  "Bear Researcher" ∉ trace.*2.
Proof.
  revert n. induction trace as [|[st t] trace IH]; intros n Hn Hrun; csimpl.
  - apply not_elem_of_nil.
  - destruct Hrun as [Hstep Hrun].
    pose proof (successor_not_bear st n t Hn Hstep) as Ht.
    intros Hin. apply elem_of_cons in Hin as [Hin|Hin]; [done|].
    by apply (IH t) in Hin.
Qed.

End ZeroRounds.

(** C3: with [max_debate_rounds = 0] the routing out of the Bull Researcher
    leads to the Research Manager in every state, and no run of the
    compiled graph from the entry visits the Bear Researcher. *)
Theorem zero_rounds_no_bear_turn :
  forall mods reg self sel g,
    setup_graph mods reg self sel = Ok g ->
    max_debate_rounds (conditional_logic self) = 0%Z ->
    (forall st, debate_continue (conditional_logic self) st = "Research Manager")
    /\ (forall st,
          successors (conditional_logic self) g st "Bull Researcher"
          = ["Research Manager"])
    /\ forall trace,
         is_run (conditional_logic self) g START trace ->
         "Bear Researcher" ∉ trace.*2.
Proof.
  intros mods reg self sel g Hacc Hzero. split_and!.
  - intros st. unfold debate_continue. by rewrite decide_True.
  - intros st. by apply (bull_successors mods reg self sel).
  - intros trace. apply (run_never_bear mods reg self sel); done.
Qed.

(** ** Selections that are accepted *)



























(** ** What a build that is turned down raises *)











(** ** The entry edge *)



(** ** The Groq client factory *)

(** C9: once [langchain_groq] has been imported, [get_groq_llm] raises the
    [ValueError] about [GROQ_API_KEY] for every argument and every
    environment; with or without the import it never returns a client. *)
Theorem get_groq_llm_always_raises :
  forall (temp : Type) (environ : gmap string string) (model_name : string)
         (temperature : temp) (api_key : option string) (timeout : Z),
    Groq.get_groq_llm true environ model_name temperature api_key timeout
    = Raise (ValueError
        "GROQ_API_KEY is not set. Provide api_key or set environment variable.")
    /\ forall chat_groq,
         match Groq.get_groq_llm chat_groq environ model_name temperature
                 api_key timeout with
         | Ok _ => False
         | Raise _ => True
         end.
Proof.
  intros temp environ model_name temperature api_key timeout.
  split; [reflexivity|]. intros [|]; exact I.
Qed.

(** ** The memory lookup *)

Section MemoryLookup.

Variables (num : Type) (one_minus : num -> num).
Variables (embedding : Type) (get_embedding : string -> embedding).
Variables (distance : embedding -> embedding -> num) (num_leb : num -> num -> bool).
Variable collection_query : embedding -> Z -> result (list (Memory.hit num)).

Abbreviation get_memories :=
  (Memory.get_memories num one_minus embedding get_embedding collection_query).
Abbreviation get_relevant_memories :=
  (Memory.get_relevant_memories num one_minus embedding get_embedding distance
     num_leb collection_query).

Lemma mapM_ok_Forall2 {A B : Type} (f : A -> result B) (l : list A) (l' : list B) :
  Memory.mapM f l = Ok l' -> Forall2 (fun x y => f x = Ok y) l l'.
Proof.
  revert l'. induction l as [|x l IH]; intros l' H; simpl in H.
  - injection H as <-. constructor.
  - bind_inv H as y Hy. bind_inv H as ys Hys. injection H as <-.
    constructor; [done | by apply IH].
Qed.


(** On the ChromaDB path each returned record is built from one match of
    the collection, in the collection's order, with the similarity score
    [1 - distance]. *)
Lemma get_memories_records self current_situation n_matches l :
  get_memories self current_situation n_matches = Ok l ->
  exists hits,
    collection_query (get_embedding current_situation) n_matches = Ok hits
    /\ Forall2 (fun h r =>
                  exists metadata recommendation,
                    Memory.hit_metadata num h = Some metadata
                    /\ dict_get "recommendation" metadata = Some recommendation
                    /\ r = Memory.record_of_hit num one_minus h recommendation)
               hits l.
Proof.
  unfold Memory.get_memories. intros H. bind_inv H as hits Hq.
  exists hits. split; [done|]. apply mapM_ok_Forall2 in H.
  eapply Forall2_impl; [exact H|]. intros h r Hr. simpl in Hr.
  bind_inv Hr as recommendation Hrec. injection Hr as <-.
  destruct (Memory.hit_metadata num h) as [metadata|]; [|discriminate].
  exists metadata, recommendation. split_and!; [done| |done].
  unfold dict_item in Hrec. destruct (dict_get _ _); [congruence | discriminate].
Qed.




End MemoryLookup.


(** ** The theorems at the sample deployment *)



Lemma sample_builds :
  setup_graph repo_modules sample_registry (sample_setup default_logic)
    ["market"; "news"] = Ok market_news_graph.
Proof. vm_compute. reflexivity. Defined.

Lemma sample_builds_zero :
  setup_graph repo_modules sample_registry (sample_setup (Logic 0 0))
    ["market"; "news"] = Ok market_news_graph.
Proof. vm_compute. reflexivity. Defined.




Lemma zero_rounds_no_bear_turn_witness :
  (forall st, debate_continue (Logic 0 0) st = "Research Manager")
  /\ (forall st,
        successors (Logic 0 0) market_news_graph st "Bull Researcher"
        = ["Research Manager"])
  /\ forall trace,
       is_run (Logic 0 0) market_news_graph START trace ->
       "Bear Researcher" ∉ trace.*2.
Proof.
  apply (zero_rounds_no_bear_turn repo_modules sample_registry
           (sample_setup (Logic 0 0)) ["market"; "news"] market_news_graph).
  - exact sample_builds_zero.
  - reflexivity.
Defined.

Lemma manager_trader_judge_unconditional_witness :
  (edge_targets market_news_graph "Research Manager" = ["Trader"]
   /\ branches_from market_news_graph "Research Manager" = [])
  /\ (edge_targets market_news_graph "Trader" = ["Risky Analyst"]
      /\ branches_from market_news_graph "Trader" = [])
  /\ (edge_targets market_news_graph "Risk Judge" = [END]
      /\ branches_from market_news_graph "Risk Judge" = [])
  /\ forall logic st,
       successors logic market_news_graph st "Research Manager" = ["Trader"]
       /\ successors logic market_news_graph st "Trader" = ["Risky Analyst"]
       /\ successors logic market_news_graph st "Risk Judge" = [END].
Proof.
  apply (manager_trader_judge_unconditional repo_modules sample_registry
           (sample_setup default_logic) ["market"; "news"] market_news_graph).
  exact sample_builds.
Defined.

Lemma risk_roles_cycle_witness :
  (edge_targets market_news_graph "Risky Analyst" = []
   /\ branches_from market_news_graph "Risky Analyst"
      = [(("Risky Analyst", "should_continue_risk_analysis"),
          MkBranch should_continue_risk_analysis
            [("Safe Analyst", "Safe Analyst"); ("Risk Judge", "Risk Judge")])])
  /\ (edge_targets market_news_graph "Safe Analyst" = []
      /\ branches_from market_news_graph "Safe Analyst"
         = [(("Safe Analyst", "should_continue_risk_analysis"),
             MkBranch should_continue_risk_analysis
               [("Neutral Analyst", "Neutral Analyst");
                ("Risk Judge", "Risk Judge")])])
  /\ (edge_targets market_news_graph "Neutral Analyst" = []
      /\ branches_from market_news_graph "Neutral Analyst"
         = [(("Neutral Analyst", "should_continue_risk_analysis"),
             MkBranch should_continue_risk_analysis
               [("Risky Analyst", "Risky Analyst");
                ("Risk Judge", "Risk Judge")])])
  /\ forall logic st t,
       (t ∈ successors logic market_news_graph st "Risky Analyst" ->
        t = "Safe Analyst" \/ t = "Risk Judge")
       /\ (t ∈ successors logic market_news_graph st "Safe Analyst" ->
           t = "Neutral Analyst" \/ t = "Risk Judge")
       /\ (t ∈ successors logic market_news_graph st "Neutral Analyst" ->
           t = "Risky Analyst" \/ t = "Risk Judge").
Proof.
  apply (risk_roles_cycle repo_modules sample_registry
           (sample_setup default_logic) ["market"; "news"] market_news_graph).
  exact sample_builds.
Defined.

Lemma analyst_tool_loop_witness :
  edge_targets market_news_graph (tools_name "news") = [analyst_name "news"]
  /\ branches_from market_news_graph (tools_name "news") = []
  /\ forall logic st,
       successors logic market_news_graph st (tools_name "news")
       = [analyst_name "news"].
Proof.
  apply (analyst_tool_loop repo_modules sample_registry
           (sample_setup default_logic) ["market"; "news"] market_news_graph
           "news").
  - exact sample_builds.
  - by apply (bool_decide_unpack _); vm_compute.
Defined.

Lemma clear_routes_to_next_witness :
  edge_targets market_news_graph (clear_name "market") = [analyst_name "news"]
  /\ branches_from market_news_graph (clear_name "market") = []
  /\ (forall logic st,
        successors logic market_news_graph st (clear_name "market")
        = [analyst_name "news"])
  /\ ((0 + 1)%nat = length ["market"; "news"] ->
      analyst_name "news" = "Bull Researcher").
Proof.
  apply (clear_routes_to_next repo_modules sample_registry
           (sample_setup default_logic) ["market"; "news"] market_news_graph
           0%nat "market").
  - exact sample_builds.
  - reflexivity.
Defined.

Lemma compiled_nodes_witness :
  node_names market_news_graph
  = flat_map stage_nodes
      (filter (registered (reg_analysts sample_registry)) ["market"; "news"])
    ++ ["Bull Researcher"; "Bear Researcher"; "Research Manager"; "Trader";
        "Risky Analyst"; "Neutral Analyst"; "Safe Analyst"; "Risk Judge"]
  /\ NoDup (node_names market_news_graph)
  /\ length (node_names market_news_graph)
     = (3 * length (filter (registered (reg_analysts sample_registry))
                      ["market"; "news"]) + 8)%nat.
Proof.
  destruct (compiled_nodes repo_modules sample_registry
              (sample_setup default_logic) ["market"; "news"] market_news_graph
              sample_builds) as (H1 & H2 & H3 & _).
  split_and!; assumption.
Defined.

(** * Further properties of the graph builder *)

(** X1: [setup_graph] returns a graph only for a selection that is not
    empty, names no analyst twice, names only analysts of the registry,
    and names only analysts the conditional logic has a predicate for. *)
Theorem accepted_selection_is_valid :
  forall mods reg self sel g,
    setup_graph mods reg self sel = Ok g ->
    sel <> [] /\ NoDup sel
    /\ Forall (fun k => is_Some (reg_analysts reg !! k)) sel
    /\ Forall (fun k => exists p,
                  getattr_logic ("should_continue_" +:+ k) = Ok p) sel.
Proof.
  intros mods reg self sel g Hacc.
  apply setup_graph_shape in Hacc as (Hne & Hnd & Hreg & _ & _ & _ & _ & _ & Hattr).
  split_and!; done.
Qed.

Lemma accepted_selection_is_valid_witness :
  ["market"; "news"] <> [] /\ NoDup ["market"; "news"]
  /\ Forall (fun k => is_Some (reg_analysts sample_registry !! k))
            ["market"; "news"]
  /\ Forall (fun k => exists p,
                getattr_logic ("should_continue_" +:+ k) = Ok p)
            ["market"; "news"].
Proof.
  apply (accepted_selection_is_valid repo_modules sample_registry
           (sample_setup default_logic) ["market"; "news"] market_news_graph).
  exact sample_builds.
Defined.

(** X2: in every compiled graph nothing but one branch leaves the Bull
    Researcher and the Bear Researcher; the ends are the other researcher
    and the Research Manager. *)
Theorem debate_nodes_branches :
  forall mods reg self sel g,
    setup_graph mods reg self sel = Ok g ->
    (edge_targets g "Bull Researcher" = []
     /\ branches_from g "Bull Researcher"
        = [(("Bull Researcher", "should_continue_debate"),
            MkBranch should_continue_debate
              [("Bear Researcher", "Bear Researcher");
               ("Research Manager", "Research Manager")])])
    /\ (edge_targets g "Bear Researcher" = []
        /\ branches_from g "Bear Researcher"
           = [(("Bear Researcher", "should_continue_debate"),
               MkBranch should_continue_debate
                 [("Bull Researcher", "Bull Researcher");
                  ("Research Manager", "Research Manager")])])
    /\ forall logic st t,
         (t ∈ successors logic g st "Bull Researcher" ->
          t = "Bear Researcher" \/ t = "Research Manager")
         /\ (t ∈ successors logic g st "Bear Researcher" ->
             t = "Bull Researcher" \/ t = "Research Manager").
Proof.
  intros mods reg self sel g Hacc.
  assert (HB : "Bull Researcher" ∈ fixed_nodes)
    by (by apply (bool_decide_unpack _); vm_compute).
  assert (HR : "Bear Researcher" ∈ fixed_nodes)
    by (by apply (bool_decide_unpack _); vm_compute).
  assert (E1 : edge_targets g "Bull Researcher" = []).
  { apply edge_targets_none. intros t.
    rewrite (edges_from_fixed _ _ _ _ _ Hacc) by done.
    unfold fixed_edges. intros H. not_listed H. }
  assert (E2 : edge_targets g "Bear Researcher" = []).
  { apply edge_targets_none. intros t.
    rewrite (edges_from_fixed _ _ _ _ _ Hacc) by done.
    unfold fixed_edges. intros H. not_listed H. }
  pose proof (branches_from_fixed _ _ _ _ _ Hacc _ HB) as B1.
  pose proof (branches_from_fixed _ _ _ _ _ Hacc _ HR) as B2.
  split_and!; try done.
  intros logic st t. unfold successors. rewrite E1, E2, B1, B2.
  split_and!; intros H; apply list_elem_of_omap in H as (b & Hb & Hr);
    apply list_elem_of_singleton in Hb as ->; by apply route_two_ends in Hr.
Qed.

Lemma debate_nodes_branches_witness :
  (edge_targets market_news_graph "Bull Researcher" = []
   /\ branches_from market_news_graph "Bull Researcher"
      = [(("Bull Researcher", "should_continue_debate"),
          MkBranch should_continue_debate
            [("Bear Researcher", "Bear Researcher");
             ("Research Manager", "Research Manager")])])
  /\ (edge_targets market_news_graph "Bear Researcher" = []
      /\ branches_from market_news_graph "Bear Researcher"
         = [(("Bear Researcher", "should_continue_debate"),
             MkBranch should_continue_debate
               [("Bull Researcher", "Bull Researcher");
                ("Research Manager", "Research Manager")])])
  /\ forall logic st t,
       (t ∈ successors logic market_news_graph st "Bull Researcher" ->
        t = "Bear Researcher" \/ t = "Research Manager")
       /\ (t ∈ successors logic market_news_graph st "Bear Researcher" ->
           t = "Bull Researcher" \/ t = "Research Manager").
Proof.
  apply (debate_nodes_branches repo_modules sample_registry
           (sample_setup default_logic) ["market"; "news"] market_news_graph).
  exact sample_builds.
Defined.

(** ** Where runs can go *)

Lemma possible_edge (g : StateGraph) (s t : string) :
  (s, t) ∈ edges g -> t ∈ possible_targets g s.
Proof.
  intros H. unfold possible_targets. apply elem_of_app. left.
  by apply elem_of_edge_targets.
Qed.

Lemma possible_branch (g : StateGraph) (b : (string * string) * Branch)
    (t : string) :
  b ∈ branches g -> t ∈ (br_ends b.2).*2 -> t ∈ possible_targets g b.1.1.
Proof.
  intros Hb Ht. unfold possible_targets. apply elem_of_app. right.
  apply elem_of_flat_map. exists b. split; [|done].
  unfold branches_from. by apply list_elem_of_filter.
Qed.

Lemma dict_get_values {V : Type} (k : string) (v : V) (d : list (string * V)) :
  dict_get k d = Some v -> v ∈ d.*2.
Proof.
  induction d as [|[k' v'] d IH]; csimpl; [discriminate|].
  case_decide.
  - intros [= ->]. left.
  - intros H'. right. by apply IH.
Qed.

Lemma successors_possible (logic : ConditionalLogic) (g : StateGraph)
    (st : AgentState) (n t : string) :
  t ∈ successors logic g st n -> t ∈ possible_targets g n.
Proof.
  unfold successors, possible_targets. rewrite !elem_of_app.
  intros [H|H]; [by left|]. right.
  apply list_elem_of_omap in H as (b & Hb & Hr).
  apply elem_of_flat_map. exists b. split; [done|].
  unfold route in Hr. by apply dict_get_values in Hr.
Qed.

Lemma possible_targets_all (g : StateGraph) (n t : string) :
  t ∈ possible_targets g n -> t ∈ all_targets g.
Proof.
  unfold possible_targets, all_targets. rewrite !elem_of_app.
  intros [H|H].
  - left. apply elem_of_edge_targets in H.
    by apply (list_elem_of_fmap_2' snd _ (n, t)).
  - right. apply elem_of_flat_map in H as (b & Hb & Ht).
    apply elem_of_flat_map. exists b. split; [|done].
    unfold branches_from in Hb. by apply list_elem_of_filter in Hb as [_ Hb].
Qed.

(** Finds an element in an explicit list. *)
Ltac listed :=
  repeat first [apply list_elem_of_here | apply list_elem_of_further].

Section Reach.

Variables (mods : gmap string (list string)) (reg : registry)
  (self : GraphSetup) (sel : list string) (g : StateGraph).
Hypothesis Hacc : setup_graph mods reg self sel = Ok g.

Let step (a b : string) : Prop := b ∈ possible_targets g a.

Lemma step_fixed_edge (s t : string) : (s, t) ∈ fixed_edges -> step s t.
Proof.
  intros H. apply possible_edge, (accepted_edges _ _ _ _ _ Hacc).
  unfold expected_edges. right. apply elem_of_app. by right.
Qed.

Lemma step_fixed_branch (b : (string * string) * Branch) (t : string) :
  b ∈ fixed_branches -> t ∈ (br_ends b.2).*2 -> step b.1.1 t.
Proof.
  intros Hb Ht. apply possible_branch; [|done].
  rewrite (accepted_branches _ _ _ _ _ Hacc). apply elem_of_app. by right.
Qed.

Lemma step_analyst_tools (k : string) :
  k ∈ sel -> step (analyst_name k) (tools_name k).
Proof.
  intros Hk. apply (possible_branch g (stage_branch k)).
  - rewrite (accepted_branches _ _ _ _ _ Hacc). apply elem_of_app. left.
    by apply list_elem_of_fmap_2.
  - unfold stage_branch. cbn [snd br_ends].
    rewrite path_map_two by apply tools_name_not_clear. left.
Qed.

Lemma step_analyst_clear (k : string) :
  k ∈ sel -> step (analyst_name k) (clear_name k).
Proof.
  intros Hk. apply (possible_branch g (stage_branch k)).
  - rewrite (accepted_branches _ _ _ _ _ Hacc). apply elem_of_app. left.
    by apply list_elem_of_fmap_2.
  - unfold stage_branch. cbn [snd br_ends].
    rewrite path_map_two by apply tools_name_not_clear. right; left.
Qed.

Lemma step_tools_analyst (k : string) :
  k ∈ sel -> step (tools_name k) (analyst_name k).
Proof.
  intros Hk. apply possible_edge, (accepted_edges _ _ _ _ _ Hacc).
  unfold expected_edges. right. apply elem_of_app. left.
  by apply stage_edges_tools.
Qed.

Lemma step_clear_next (i : nat) (k : string) :
  sel !! i = Some k -> step (clear_name k) (next_hop sel i).
Proof.
  intros Hi. apply possible_edge, (accepted_edges _ _ _ _ _ Hacc).
  unfold expected_edges. right. apply elem_of_app. left.
  apply elem_of_stage_edges. exists i, k. split; [done|]. by right.
Qed.

Lemma reach_analyst (i : nat) (k : string) :
  sel !! i = Some k -> rtc step START (analyst_name k).
Proof.
  revert k. induction i as [|i IH]; intros k Hi.
  - apply rtc_once. apply possible_edge, (accepted_edges _ _ _ _ _ Hacc).
    unfold expected_edges, first_analyst. rewrite Hi. left.
  - destruct (lookup_lt_is_Some_2 sel i) as [k' Hk'].
    { apply lookup_lt_Some in Hi. lia. }
    eapply rtc_r; [eapply rtc_r; [apply (IH k' Hk')|]|].
    + apply step_analyst_clear. by eapply list_elem_of_lookup_2.
    + pose proof (step_clear_next i k' Hk') as Hs. unfold next_hop in Hs.
      replace (i + 1)%nat with (S i) in Hs by lia. by rewrite Hi in Hs.
Qed.

Lemma reach_bull : rtc step START "Bull Researcher".
Proof.
  pose proof Hacc as Hshape. apply setup_graph_shape in Hshape as (Hne & _).
  destruct (lookup_lt_is_Some_2 sel (length sel - 1)) as [k Hk].
  { destruct sel; [done|]. simpl. lia. }
  eapply rtc_r; [eapply rtc_r; [apply (reach_analyst _ k Hk)|]|].
  - apply step_analyst_clear. by eapply list_elem_of_lookup_2.
  - pose proof (step_clear_next _ k Hk) as Hs. unfold next_hop in Hs.
    rewrite (lookup_ge_None_2 sel (length sel - 1 + 1)) in Hs by lia. done.
Qed.

Lemma reach_stage (k x : string) :
  k ∈ sel -> x ∈ stage_nodes k -> rtc step START x.
Proof.
  intros Hk Hx. pose proof Hk as Hi. apply list_elem_of_lookup_1 in Hi as [i Hi].
  pose proof (reach_analyst i k Hi) as HA.
  unfold stage_nodes in Hx. rewrite !elem_of_cons, elem_of_nil in Hx.
  destruct Hx as [->|[->|[->|[]]]].
  - done.
  - eapply rtc_r; [exact HA|]. by apply step_analyst_clear.
  - eapply rtc_r; [exact HA|]. by apply step_analyst_tools.
Qed.


Lemma reach_fixed (x : string) :
  x ∈ fixed_nodes \/ x = END -> rtc step START x.
Proof.
  pose proof reach_bull as HBull.
  assert (HBear : rtc step START "Bear Researcher").
  { eapply rtc_r; [exact HBull|].
    apply (step_fixed_branch
             (("Bull Researcher", "should_continue_debate"),
              MkBranch should_continue_debate
                [("Bear Researcher", "Bear Researcher");
                 ("Research Manager", "Research Manager")]));
      [unfold fixed_branches; listed | simpl; listed]. }
  assert (HRM : rtc step START "Research Manager").
  { eapply rtc_r; [exact HBull|].
    apply (step_fixed_branch
             (("Bull Researcher", "should_continue_debate"),
              MkBranch should_continue_debate
                [("Bear Researcher", "Bear Researcher");
                 ("Research Manager", "Research Manager")]));
      [unfold fixed_branches; listed | simpl; listed]. }
  assert (HT : rtc step START "Trader").
  { eapply rtc_r; [exact HRM|]. apply step_fixed_edge.
    by apply (bool_decide_unpack _); vm_compute. }
  assert (HRisky : rtc step START "Risky Analyst").
  { eapply rtc_r; [exact HT|]. apply step_fixed_edge.
    by apply (bool_decide_unpack _); vm_compute. }
  assert (HSafe : rtc step START "Safe Analyst").
  { eapply rtc_r; [exact HRisky|].
    apply (step_fixed_branch
             (("Risky Analyst", "should_continue_risk_analysis"),
              MkBranch should_continue_risk_analysis
                [("Safe Analyst", "Safe Analyst"); ("Risk Judge", "Risk Judge")]));
      [unfold fixed_branches; listed | simpl; listed]. }
  assert (HNeutral : rtc step START "Neutral Analyst").
  { eapply rtc_r; [exact HSafe|].
    apply (step_fixed_branch
             (("Safe Analyst", "should_continue_risk_analysis"),
              MkBranch should_continue_risk_analysis
                [("Neutral Analyst", "Neutral Analyst");
                 ("Risk Judge", "Risk Judge")]));
      [unfold fixed_branches; listed | simpl; listed]. }
  assert (HRJ : rtc step START "Risk Judge").
  { eapply rtc_r; [exact HRisky|].
    apply (step_fixed_branch
             (("Risky Analyst", "should_continue_risk_analysis"),
              MkBranch should_continue_risk_analysis
                [("Safe Analyst", "Safe Analyst"); ("Risk Judge", "Risk Judge")]));
      [unfold fixed_branches; listed | simpl; listed]. }
  assert (HEND : rtc step START END).
  { eapply rtc_r; [exact HRJ|]. apply step_fixed_edge.
    by apply (bool_decide_unpack _); vm_compute. }
  intros [Hx| ->]; [|done].
  unfold fixed_nodes in Hx. rewrite !elem_of_cons, elem_of_nil in Hx.
  repeat (destruct Hx as [->|Hx]; [done|]). done.
Qed.

End Reach.

(** X3: in every compiled graph each node, and the terminal node, can be
    reached from the entry along edges and branch ends. *)
Theorem every_node_reachable :
  forall mods reg self sel g n,
    setup_graph mods reg self sel = Ok g ->
    n ∈ node_names g \/ n = END ->
    rtc (fun a b => b ∈ possible_targets g a) START n.
Proof.
  intros mods reg self sel g n Hacc Hn.
  pose proof Hacc as Hshape.
  apply setup_graph_shape in Hshape as (_ & _ & _ & Hnames & _).
  rewrite Hnames, elem_of_app, elem_of_flat_map in Hn.
  destruct Hn as [[(k & Hk & Hx)|Hx]|Hx].
  - by apply (reach_stage mods reg self sel g Hacc k).
  - apply (reach_fixed mods reg self sel g Hacc). by left.
  - apply (reach_fixed mods reg self sel g Hacc). by right.
Qed.

Lemma every_node_reachable_witness :
  rtc (fun a b => b ∈ possible_targets market_news_graph a) START "tools_news".
Proof.
  apply (every_node_reachable repo_modules sample_registry
           (sample_setup default_logic) ["market"; "news"] market_news_graph
           "tools_news").
  - exact sample_builds.
  - left. by apply (bool_decide_unpack _); vm_compute.
Defined.

(** X4: in every compiled graph each node has an edge or a branch end to
    go to: none is a dead end. *)
Theorem no_dead_end :
  forall mods reg self sel g n,
    setup_graph mods reg self sel = Ok g ->
    n ∈ node_names g ->
    exists t, t ∈ possible_targets g n.
Proof.
  intros mods reg self sel g n Hacc Hn.
  pose proof Hacc as Hshape.
  apply setup_graph_shape in Hshape as (_ & _ & _ & Hnames & _).
  rewrite Hnames, elem_of_app, elem_of_flat_map in Hn.
  destruct Hn as [(k & Hk & Hx)|Hx].
  - unfold stage_nodes in Hx. rewrite !elem_of_cons, elem_of_nil in Hx.
    destruct Hx as [->|[->|[->|[]]]].
    + exists (tools_name k). by apply (step_analyst_tools mods reg self sel g Hacc).
    + apply list_elem_of_lookup_1 in Hk as [i Hi]. exists (next_hop sel i).
      by apply (step_clear_next mods reg self sel g Hacc).
    + exists (analyst_name k). by apply (step_tools_analyst mods reg self sel g Hacc).
  - unfold fixed_nodes in Hx. rewrite !elem_of_cons, elem_of_nil in Hx.
    destruct Hx as [->|[->|[->|[->|[->|[->|[->|[->|[]]]]]]]]].
    + exists "Research Manager".
      apply (step_fixed_branch mods reg self sel g Hacc
               (("Bull Researcher", "should_continue_debate"),
                MkBranch should_continue_debate
                  [("Bear Researcher", "Bear Researcher");
                   ("Research Manager", "Research Manager")]));
        [unfold fixed_branches; listed | simpl; listed].
    + exists "Research Manager".
      apply (step_fixed_branch mods reg self sel g Hacc
               (("Bear Researcher", "should_continue_debate"),
                MkBranch should_continue_debate
                  [("Bull Researcher", "Bull Researcher");
                   ("Research Manager", "Research Manager")]));
        [unfold fixed_branches; listed | simpl; listed].
    + exists "Trader". apply (step_fixed_edge mods reg self sel g Hacc).
      unfold fixed_edges; listed.
    + exists "Risky Analyst". apply (step_fixed_edge mods reg self sel g Hacc).
      unfold fixed_edges; listed.
    + exists "Risk Judge".
      apply (step_fixed_branch mods reg self sel g Hacc
               (("Risky Analyst", "should_continue_risk_analysis"),
                MkBranch should_continue_risk_analysis
                  [("Safe Analyst", "Safe Analyst"); ("Risk Judge", "Risk Judge")]));
        [unfold fixed_branches; listed | simpl; listed].
    + exists "Risk Judge".
      apply (step_fixed_branch mods reg self sel g Hacc
               (("Neutral Analyst", "should_continue_risk_analysis"),
                MkBranch should_continue_risk_analysis
                  [("Risky Analyst", "Risky Analyst");
                   ("Risk Judge", "Risk Judge")]));
        [unfold fixed_branches; listed | simpl; listed].
    + exists "Risk Judge".
      apply (step_fixed_branch mods reg self sel g Hacc
               (("Safe Analyst", "should_continue_risk_analysis"),
                MkBranch should_continue_risk_analysis
                  [("Neutral Analyst", "Neutral Analyst");
                   ("Risk Judge", "Risk Judge")]));
        [unfold fixed_branches; listed | simpl; listed].
    + exists END. apply (step_fixed_edge mods reg self sel g Hacc).
      unfold fixed_edges; listed.
Qed.

Lemma no_dead_end_witness :
  exists t, t ∈ possible_targets market_news_graph "Msg Clear News".
Proof.
  apply (no_dead_end repo_modules sample_registry
           (sample_setup default_logic) ["market"; "news"] market_news_graph
           "Msg Clear News").
  - exact sample_builds.
  - by apply (bool_decide_unpack _); vm_compute.
Defined.

(** X5: a run of a compiled graph only visits nodes of the graph and the
    terminal node, in every state and for every round limit; and nothing
    leaves the terminal node. *)
Theorem runs_stay_in_graph :
  forall mods reg self sel g,
    setup_graph mods reg self sel = Ok g ->
    possible_targets g END = []
    /\ forall logic n trace,
         is_run logic g n trace ->
         Forall (fun x => x ∈ node_names g \/ x = END) trace.*2.
Proof.
  intros mods reg self sel g Hacc. split.
  - pose proof Hacc as Hshape.
    apply setup_graph_shape in Hshape as (_ & _ & _ & Hnames & (_ & _ & HE) & _).
    apply elem_of_nil_inv. intros t Ht. unfold possible_targets in Ht.
    apply elem_of_app in Ht as [Ht|Ht].
    + apply elem_of_edge_targets, (accepted_edges _ _ _ _ _ Hacc) in Ht.
      unfold expected_edges in Ht.
      rewrite elem_of_cons, elem_of_app, elem_of_stage_edges in Ht.
      destruct Ht as [Ht|[(j & k & Hj & [[Ht _]|[Ht _]])|Ht]].
      * discriminate Ht.
      * discriminate Ht.
      * discriminate Ht.
      * unfold fixed_edges in Ht. not_listed Ht.
    + apply elem_of_flat_map in Ht as (b & Hb & _).
      apply list_elem_of_filter in Hb as [Hsrc Hb].
      rewrite (accepted_branches _ _ _ _ _ Hacc) in Hb.
      apply elem_of_app in Hb as [Hb|Hb].
      * apply list_elem_of_fmap in Hb as (k & -> & Hk). simpl in Hsrc.
        apply HE. rewrite Hnames, <- Hsrc. apply elem_of_app. left.
        apply elem_of_flat_map. exists k. split; [done|left].
      * apply fixed_branch_source in Hb. rewrite Hsrc in Hb.
        unfold fixed_nodes in Hb. not_listed Hb.
  - apply setup_graph_ok_inv in Hacc as (_ & _ & _ & _ & _ & _ & _ & _ & Hval).
    apply validate_ok_inv in Hval as (_ & _ & Htargets).
    intros logic n trace. revert n.
    induction trace as [|[st t] trace IH]; intros n Hrun; csimpl.
    + constructor.
    + destruct Hrun as [Hstep Hrun]. constructor; [|by apply (IH t)].
      by apply Htargets, (possible_targets_all g n), (successors_possible logic g st).
Qed.

Lemma runs_stay_in_graph_witness :
  possible_targets market_news_graph END = []
  /\ forall logic n trace,
       is_run logic market_news_graph n trace ->
       Forall (fun x => x ∈ node_names market_news_graph \/ x = END) trace.*2.
Proof.
  apply (runs_stay_in_graph repo_modules sample_registry
           (sample_setup default_logic) ["market"; "news"]).
  exact sample_builds.
Defined.

(** X6: the edges and branches of a compiled graph, in full.  An edge
    leads from the entry to the first analyst, from each tool node to its
    analyst, from each message-clearing node to the next analyst (the Bull
    Researcher after the last), from the Research Manager to the Trader,
    from the Trader to the Risky Analyst and from the Risk Judge to the
    terminal node, and there is no other edge; the branches are one per
    selected analyst, in the order of the selection, followed by the five
    of the two debates. *)
Theorem compiled_topology :
  forall mods reg self sel g,
    setup_graph mods reg self sel = Ok g ->
    (forall s t,
       (s, t) ∈ edges g <->
       (s = START /\ exists first, sel !! 0%nat = Some first
                                   /\ t = analyst_name first)
       \/ (exists i k, sel !! i = Some k
             /\ ((s = tools_name k /\ t = analyst_name k)
                 \/ (s = clear_name k
                     /\ t = match sel !! (i + 1)%nat with
                            | Some next => analyst_name next
                            | None => "Bull Researcher"
                            end)))
       \/ (s = "Research Manager" /\ t = "Trader")
       \/ (s = "Trader" /\ t = "Risky Analyst")
       \/ (s = "Risk Judge" /\ t = END))
    /\ branches g
       = ((fun k =>
             ((analyst_name k, "should_continue_" +:+ k),
              MkBranch (stage_predicate k)
                [(tools_name k, tools_name k); (clear_name k, clear_name k)]))
            <$> sel)
         ++ fixed_branches
    /\ length (branches g) = (length sel + 5)%nat.
Proof.
  intros mods reg self sel g Hacc.
  pose proof Hacc as Hshape.
  apply setup_graph_shape in Hshape as (Hne & _ & _ & _ & _ & Hbr & Hed & _).
  assert (Hbr' : branches g
       = ((fun k =>
             ((analyst_name k, "should_continue_" +:+ k),
              MkBranch (stage_predicate k)
                [(tools_name k, tools_name k); (clear_name k, clear_name k)]))
            <$> sel)
         ++ fixed_branches).
  { rewrite Hbr. apply (f_equal (fun l => l ++ fixed_branches)).
    apply list_fmap_ext. intros i k _.
    unfold stage_branch. by rewrite path_map_two by apply tools_name_not_clear. }
  split_and!.
  - intros s t. rewrite Hed. unfold expected_edges, first_analyst, fixed_edges.
    rewrite elem_of_cons, elem_of_app, elem_of_stage_edges.
    rewrite !elem_of_cons, elem_of_nil. unfold next_hop. simpl.
    destruct (sel !! 0%nat) as [k0|] eqn:H0;
      [|destruct sel; [done | discriminate]].
    simpl. split.
    + intros [[= -> ->]|[H|[[= -> ->]|[[= -> ->]|[[= -> ->]|[]]]]]]; eauto 10.
    + intros [[-> (first & [= <-] & ->)]|[H|[[-> ->]|[[-> ->]|[-> ->]]]]]; eauto 10.
  - done.
  - rewrite Hbr', length_app, length_fmap. done.
Qed.

Lemma compiled_topology_witness :
  length (branches market_news_graph) = (length ["market"; "news"] + 5)%nat.
Proof.
  apply (compiled_topology repo_modules sample_registry
           (sample_setup default_logic) ["market"; "news"] market_news_graph).
  exact sample_builds.
Defined.

(** * The loader *)

Lemma rsplit_dot_None (s : string) :
  rsplit_dot s = None <-> contains_dot s = false.
Proof.
  induction s as [|c s IH]; simpl; [done|].
  destruct (rsplit_dot s) as [[m a]|] eqn:Hs.
  - case_decide; [done|]. split; [done|]. intros Hc. by apply IH in Hc.
  - case_decide; [done|]. by apply IH.
Qed.

(** X7: [rsplit_dot] splits at the last dot: it returns [(m, a)] exactly
    when the string is [m], a dot, then [a], and [a] holds no dot; it
    returns nothing exactly when the string holds no dot. *)
Theorem rsplit_dot_last_dot :
  forall s : string,
    (forall m a,
       rsplit_dot s = Some (m, a) <->
       s = m +:+ "." +:+ a /\ contains_dot a = false)
    /\ (rsplit_dot s = None <-> contains_dot s = false).
Proof.
  intros s. split; [|apply rsplit_dot_None].
  induction s as [|c s IH]; intros m a; simpl.
  - split; [done|]. intros [H _]. destruct m; discriminate H.
  - destruct (rsplit_dot s) as [[m' a']|] eqn:Hs.
    + split.
      * intros [= <- <-]. destruct (IH m' a') as [H1 _].
        destruct (H1 eq_refl) as [-> Ha]. done.
      * intros [Heq Ha]. destruct m as [|c' m]; simpl in Heq.
        -- injection Heq as -> ->.
           assert (Hnone : rsplit_dot a = None) by (by apply rsplit_dot_None).
           congruence.
        -- injection Heq as <- Heq. destruct (IH m a) as [_ H2].
           specialize (H2 (conj Heq Ha)). congruence.
    + apply rsplit_dot_None in Hs. case_decide as Hc.
      * split.
        -- intros [= <- <-]. subst c. done.
        -- intros [Heq Ha]. destruct m as [|c' m]; simpl in Heq.
           ++ by injection Heq as _ ->.
           ++ injection Heq as _ Heq. exfalso.
              destruct (IH m a) as [_ H2].
              specialize (H2 (conj Heq Ha)). discriminate H2.
      * split; [done|]. intros [Heq Ha]. destruct m as [|c' m]; simpl in Heq.
        -- by injection Heq as ->.
        -- injection Heq as _ Heq. exfalso.
           destruct (IH m a) as [_ H2].
           specialize (H2 (conj Heq Ha)). discriminate H2.
Qed.

(** X8: [import_from_string] returns exactly when the path is a module
    name that is not empty and can be imported, a dot, and a name without
    dots that the module defines; what it returns is the object at that
    path. *)
Theorem import_from_string_ok_iff :
  forall (mods : gmap string (list string)) (dotted_path f : string),
    import_from_string mods dotted_path = Ok f <->
    f = dotted_path
    /\ exists module_path attr_name names,
         dotted_path = module_path +:+ "." +:+ attr_name
         /\ contains_dot attr_name = false
         /\ module_path <> EmptyString
         /\ mods !! module_path = Some names
         /\ attr_name ∈ names.
Proof.
  intros mods p f. unfold import_from_string.
  destruct (rsplit_dot_last_dot p) as [Hsome Hnone]. split.
  - destruct (contains_dot p) eqn:Hdot; simpl; [|discriminate].
    destruct (rsplit_dot p) as [[m a]|] eqn:Hsplit; [|discriminate].
    destruct (Hsome m a) as [H1 _]. destruct (H1 eq_refl) as [Hp Ha].
    case_decide as Hm; [discriminate|].
    destruct (mods !! m) as [names|] eqn:Hmod; [|discriminate].
    case_decide as Hin; [|discriminate]. intros [= <-].
    split; [done|]. exists m, a, names. done.
  - intros (-> & m & a & names & Hp & Ha & Hm & Hmod & Hin).
    assert (Hsplit : rsplit_dot p = Some (m, a)) by (by apply Hsome).
    destruct (contains_dot p) eqn:Hdot; simpl.
    + rewrite Hsplit. rewrite decide_False by done. rewrite Hmod.
      by rewrite decide_True.
    + destruct Hnone as [_ Hnone]. specialize (Hnone eq_refl). congruence.
Qed.

(** * The registry validation script *)

Lemma json_ind (P : json -> Prop) :
  P JNull -> (forall b, P (JBool b)) -> (forall l, P (JNumber l)) ->
  (forall s, P (JString s)) ->
  (forall items, Forall P items -> P (JArray items)) ->
  (forall members, Forall (fun kv => P kv.2) members -> P (JObject members)) ->
  forall j, P j.
Proof.
  intros Hnull Hbool Hnum Hstr Harr Hobj.
  fix IH 1. intros [ |b|l|s|items|members].
  - exact Hnull.
  - apply Hbool.
  - apply Hnum.
  - apply Hstr.
  - apply Harr. induction items as [|j items IHitems]; constructor.
    + apply IH.
    + exact IHitems.
  - apply Hobj. induction members as [|[k j] members IHmembers]; constructor.
    + apply IH.
    + exact IHmembers.
Qed.

Lemma validate_dotted_paths_leaves mods obj :
  forall label,
    (fun f : string * string * string => f.1.2)
      <$> validate_dotted_paths mods obj label
    = filter (fun dotted => loads mods (Ok dotted) = false) (string_leaves obj).
Proof.
  induction obj as [ |b|l|s|items IH|members IH] using json_ind;
    intros label; try done.
  - simpl. destruct (import_from_string mods s) as [f|e] eqn:He; simpl.
    + rewrite filter_cons_False; [done|]. unfold loads. by rewrite He.
    + rewrite filter_cons_True; [done|]. unfold loads. by rewrite He.
  - simpl. generalize 0%nat as i.
    induction IH as [|j items Hj _ IHitems]; intros i; [done|].
    rewrite fmap_app, filter_app, Hj. f_equal. apply IHitems.
  - simpl. induction IH as [|[k j] members Hj _ IHmembers]; [done|].
    rewrite fmap_app, filter_app. simpl in Hj. rewrite Hj. f_equal.
    apply IHmembers.
Qed.

Lemma validate_dotted_paths_messages mods obj :
  forall label,
    Forall (fun f : string * string * string =>
              exists e, import_from_string mods f.1.2 = Raise e
                        /\ f.2 = exn_str e)
           (validate_dotted_paths mods obj label).
Proof.
  induction obj as [ |b|l|s|items IH|members IH] using json_ind;
    intros label; try (by constructor).
  - simpl. destruct (import_from_string mods s) as [f|e] eqn:He; constructor.
    + by exists e.
    + constructor.
  - simpl. generalize 0%nat as i.
    induction IH as [|j items Hj _ IHitems]; intros i; [constructor|].
    apply Forall_app. split; [apply Hj | apply IHitems].
  - simpl. induction IH as [|[k j] members Hj _ IHmembers]; [constructor|].
    apply Forall_app. split; [apply Hj | apply IHmembers].
Qed.

Lemma validate_dotted_paths_leaves_nil mods obj label :
  validate_dotted_paths mods obj label = [] <->
  Forall (fun dotted => loads mods (Ok dotted) = true) (string_leaves obj).
Proof.
  pose proof (validate_dotted_paths_leaves mods obj label) as Hl. split.
  - intros Hnil. rewrite Hnil in Hl. symmetry in Hl.
    apply Forall_forall. intros dotted Hin.
    destruct (loads mods (Ok dotted)) eqn:Hd; [done|]. exfalso.
    assert (Hf : dotted ∈ filter (fun dotted => loads mods (Ok dotted) = false)
                           (string_leaves obj))
      by (by apply list_elem_of_filter).
    rewrite Hl in Hf. by apply elem_of_nil in Hf.
  - intros Hall.
    apply fmap_nil_inv with (f := fun f : string * string * string => f.1.2).
    rewrite Hl. apply elem_of_nil_inv. intros dotted Hin.
    apply list_elem_of_filter in Hin as [Hf Hin].
    rewrite Forall_forall in Hall. specialize (Hall dotted Hin).
    cbv beta in Hf, Hall. rewrite Hall in Hf. discriminate Hf.
Qed.

(** X9: the failures [validate_dotted_paths] reports are, in order, the
    strings of the document that [import_from_string] turns down, each
    with the message of the exception raised; strings that import, numbers,
    booleans and nulls are never reported.  So the report is empty exactly
    when every string of the document imports. *)
Theorem validate_dotted_paths_report :
  forall (mods : gmap string (list string)) (obj : json) (label : string),
    (fun f : string * string * string => f.1.2)
      <$> validate_dotted_paths mods obj label
    = filter (fun dotted => loads mods (Ok dotted) = false) (string_leaves obj)
    /\ Forall (fun f : string * string * string =>
                 exists e, import_from_string mods f.1.2 = Raise e
                           /\ f.2 = exn_str e)
              (validate_dotted_paths mods obj label)
    /\ (validate_dotted_paths mods obj label = [] <->
        Forall (fun dotted => loads mods (Ok dotted) = true) (string_leaves obj)).
Proof.
  intros mods obj label.
  pose proof (validate_dotted_paths_leaves mods obj label) as Hl.
  split_and!; [exact Hl | apply validate_dotted_paths_messages |].
  split.
  - intros Hnil. rewrite Hnil in Hl. symmetry in Hl.
    apply Forall_forall. intros dotted Hin.
    destruct (loads mods (Ok dotted)) eqn:Hd; [done|]. exfalso.
    assert (Hf : dotted ∈ filter (fun dotted => loads mods (Ok dotted) = false)
                           (string_leaves obj))
      by (by apply list_elem_of_filter).
    rewrite Hl in Hf. by apply elem_of_nil in Hf.
  - intros Hall. apply fmap_nil_inv with (f := fun f : string * string * string => f.1.2).
    rewrite Hl. apply elem_of_nil_inv. intros dotted Hin.
    apply list_elem_of_filter in Hin as [Hf Hin].
    rewrite Forall_forall in Hall. specialize (Hall dotted Hin).
    cbv beta in Hf, Hall. rewrite Hall in Hf. discriminate Hf.
Qed.

Lemma check_registries_failures fs mods paths :
  (check_registries fs mods paths).2 = [] <->
  Forall (fun p => exists obj, fs p = Parsed obj
                     /\ validate_dotted_paths mods obj (basename p) = []) paths.
Proof.
  induction paths as [|p paths IH]; simpl.
  - split; [constructor | done].
  - destruct (check_registries fs mods paths) as [out all_failures] eqn:Hrest.
    simpl in IH. rewrite Forall_cons.
    destruct (fs p) as [ |msg|obj] eqn:Hp; simpl.
    + split; [done|]. intros [(obj & Hobj & _) _]. discriminate Hobj.
    + split; [done|]. intros [(obj & Hobj & _) _]. discriminate Hobj.
    + destruct (validate_dotted_paths mods obj (basename p)) as [|f fs'] eqn:Hv;
        simpl.
      * rewrite IH. split; [|tauto]. intros H. split; [|done]. by exists obj.
      * split; [done|]. intros [(obj' & [= <-] & Hnil) _]. congruence.
Qed.

(** X10: [main] of the validation script returns without [sys.exit]
    exactly when each of the three registry files exists, parses as JSON
    and holds only strings that import; in every other case it exits with
    status 1. *)
Theorem validate_main_exit :
  forall (fs : string -> file_state) (mods : gmap string (list string))
         (root : string),
    ((validate_main fs mods root).2 = None <->
     Forall (fun p => exists obj,
                 fs p = Parsed obj
                 /\ Forall (fun dotted => loads mods (Ok dotted) = true)
                           (string_leaves obj))
            (registry_paths root))
    /\ ((validate_main fs mods root).2 = None
        \/ (validate_main fs mods root).2 = Some 1%Z).
Proof.
  intros fs mods root. unfold validate_main.
  pose proof (check_registries_failures fs mods (registry_paths root)) as H.
  destruct (check_registries fs mods (registry_paths root))
    as [out all_failures]. simpl in H.
  assert (Hequiv :
    Forall (fun p => exists obj, fs p = Parsed obj
              /\ validate_dotted_paths mods obj (basename p) = [])
           (registry_paths root)
    <-> Forall (fun p => exists obj, fs p = Parsed obj
                  /\ Forall (fun dotted => loads mods (Ok dotted) = true)
                            (string_leaves obj))
               (registry_paths root)).
  { split; intros HF; (eapply Forall_impl; [exact HF|]);
      intros p (obj & Hobj & Hv); exists obj; (split; [done|]);
      by apply (validate_dotted_paths_leaves_nil mods obj (basename p)). }
  rewrite <- Hequiv, <- H.
  destruct all_failures; simpl; split; try tauto; split; done.
Qed.

(** * The memory lookup, further *)

Section MemoryProperties.

Variables (num : Type) (one_minus : num -> num).
Variables (embedding : Type) (get_embedding : string -> embedding).
Variables (distance : embedding -> embedding -> num) (num_leb : num -> num -> bool).
Variable collection_query : embedding -> Z -> result (list (Memory.hit num)).

Lemma insert_by_perm (q : embedding) (r : Memory.memory_row embedding)
    (l : list (Memory.memory_row embedding)) :
  Memory.insert_by num embedding distance num_leb q r l ≡ₚ r :: l.
Proof.
  induction l as [|r' l IH]; simpl; [done|].
  destruct (num_leb _ _); [done|]. rewrite IH. apply Permutation_swap.
Qed.

Lemma order_by_distance_perm (q : embedding)
    (l : list (Memory.memory_row embedding)) :
  Memory.order_by_distance num embedding distance num_leb q l ≡ₚ l.
Proof.
  unfold Memory.order_by_distance. induction l as [|r l IH]; simpl; [done|].
  by rewrite insert_by_perm, IH.
Qed.

Lemma insert_by_sorted (q : embedding) (r : Memory.memory_row embedding)
    (l : list (Memory.memory_row embedding)) :
  (forall x y, num_leb x y = true \/ num_leb y x = true) ->
  Sorted (fun a b => num_leb (distance (Memory.row_embedding embedding a) q)
                             (distance (Memory.row_embedding embedding b) q)
                     = true) l ->
  Sorted (fun a b => num_leb (distance (Memory.row_embedding embedding a) q)
                             (distance (Memory.row_embedding embedding b) q)
                     = true)
         (Memory.insert_by num embedding distance num_leb q r l).
Proof.
  intros Htotal. induction l as [|r' l IH]; intros Hs; simpl.
  - repeat constructor.
  - destruct (num_leb (distance (Memory.row_embedding embedding r) q)
                      (distance (Memory.row_embedding embedding r') q)) eqn:Hle.
    + constructor; [done|]. by constructor.
    + apply Sorted_inv in Hs as [Hs Hhd]. constructor; [by apply IH|].
      assert (Hle' : num_leb (distance (Memory.row_embedding embedding r') q)
                             (distance (Memory.row_embedding embedding r) q)
                     = true).
      { destruct (Htotal (distance (Memory.row_embedding embedding r) q)
                         (distance (Memory.row_embedding embedding r') q));
          congruence. }
      destruct l as [|r'' l]; simpl.
      * by constructor.
      * destruct (num_leb (distance (Memory.row_embedding embedding r) q)
                          (distance (Memory.row_embedding embedding r'') q));
          constructor; first [exact Hle' | by apply HdRel_inv in Hhd].
Qed.

Lemma order_by_distance_sorted (q : embedding)
    (l : list (Memory.memory_row embedding)) :
  (forall x y, num_leb x y = true \/ num_leb y x = true) ->
  Sorted (fun a b => num_leb (distance (Memory.row_embedding embedding a) q)
                             (distance (Memory.row_embedding embedding b) q)
                     = true)
         (Memory.order_by_distance num embedding distance num_leb q l).
Proof.
  intros Htotal. unfold Memory.order_by_distance.
  induction l as [|r l IH]; simpl; [constructor|]. by apply insert_by_sorted.
Qed.

Lemma Sorted_take {A : Type} (R : A -> A -> Prop) (n : nat) (l : list A) :
  Sorted R l -> Sorted R (take n l).
Proof.
  revert n. induction l as [|x l IH]; intros n Hs; destruct n; simpl;
    try constructor.
  - apply IH. by apply Sorted_inv in Hs as [Hs _].
  - apply Sorted_inv in Hs as [_ Hhd]. destruct l, n; simpl; constructor.
    by apply HdRel_inv in Hhd.
Qed.

End MemoryProperties.

(** X11: [get_relevant_memories] and [semantic_search_async] give the same
    answer for every memory and every argument: the second guard and the
    second fallback of [get_relevant_memories] change nothing. *)
Theorem get_relevant_memories_is_semantic_search :
  forall (num : Type) (one_minus : num -> num) (embedding : Type)
         (get_embedding : string -> embedding)
         (distance : embedding -> embedding -> num)
         (num_leb : num -> num -> bool)
         (collection_query : embedding -> Z -> result (list (Memory.hit num)))
         (self : Memory.EnhancedFinancialMemory embedding)
         (context : string) (ticker : option string) (limit : Z),
    Memory.get_relevant_memories num one_minus embedding get_embedding distance
      num_leb collection_query self context ticker limit
    = Memory.semantic_search_async num one_minus embedding get_embedding
        distance num_leb collection_query self context ticker limit.
Proof.
  intros. unfold Memory.get_relevant_memories, Memory.semantic_search_async.
  destruct (Memory.use_vector_db embedding self); [|done].
  destruct (Memory.vector_db embedding self); done.
Qed.

(** X12: [semantic_search_memories] returns at most [limit] dictionaries;
    each is the dictionary of a row of the table that has the requested
    memory type and, when a ticker is given, the requested ticker.  It
    returns the empty list when the database cannot be reached, when the
    pool has no codec for [vector], when [limit] is not positive and when
    [limit] does not fit a [bigint]. *)
Theorem semantic_search_memories_rows :
  forall (num : Type) (one_minus : num -> num) (embedding : Type)
         (get_embedding : string -> embedding)
         (distance : embedding -> embedding -> num)
         (num_leb : num -> num -> bool)
         (db : Memory.NeonVectorDB embedding) (query : string)
         (memory_type ticker : option string) (limit : Z),
    let result :=
      Memory.semantic_search_memories num one_minus embedding get_embedding
        distance num_leb db query memory_type ticker limit in
    (length result <= Z.to_nat limit)%nat
    /\ Forall (fun r =>
                 exists row,
                   row ∈ Memory.db_rows embedding db
                   /\ r = Memory.row_dict num one_minus embedding distance
                            (get_embedding query) row
                   /\ (Memory.truthy_opt memory_type = true ->
                       Some (Memory.row_memory_type embedding row) = memory_type)
                   /\ (Memory.truthy_opt ticker = true ->
                       Memory.row_ticker embedding row = ticker))
              result
    /\ (Memory.db_reachable embedding db = false
        \/ Memory.db_vector_codec embedding db = false
        \/ (limit <= 0)%Z \/ (2 ^ 63 <= limit)%Z ->
        result = []).
Proof.
  intros num one_minus embedding get_embedding distance num_leb db query
    memory_type ticker limit result.
  unfold result, Memory.semantic_search_memories.
  destruct (Memory.db_reachable embedding db); simpl.
  2:{ split_and!; [lia | constructor | done]. }
  destruct (Memory.db_vector_codec embedding db); simpl.
  2:{ split_and!; [lia | constructor | done]. }
  case_decide as Hfit.
  { split_and!; [simpl; lia | constructor | done]. }
  case_decide as Hneg.
  { split_and!; [simpl; lia | constructor | done]. }
  split_and!.
  - rewrite length_fmap, length_take. lia.
  - apply Forall_fmap, Forall_forall. intros row Hrow.
    apply elem_of_take in Hrow as _Hi. destruct _Hi as (i & Hrow' & _).
    apply list_elem_of_lookup_2 in Hrow'. clear Hrow.
    rewrite order_by_distance_perm in Hrow'.
    apply list_elem_of_In, filter_In in Hrow' as [Hin Hkeep].
    apply list_elem_of_In in Hin. apply andb_true_iff in Hkeep as [Hm Ht].
    simpl. exists row. split_and!; [done|done| |].
    + intros Htr. rewrite Htr in Hm. by apply bool_decide_eq_true in Hm.
    + intros Htr. rewrite Htr in Ht. by apply bool_decide_eq_true in Ht.
  - intros [Hdb|[Hcodec|[Hlim|Hlim]]]; [done|done| |lia].
    replace (Z.to_nat limit) with 0%nat by lia. done.
Qed.

(** X13: when the comparison of distances is total, the rows behind the
    dictionaries [semantic_search_memories] returns come in order of
    non-decreasing distance from the query. *)
Theorem semantic_search_memories_sorted :
  forall (num : Type) (one_minus : num -> num) (embedding : Type)
         (get_embedding : string -> embedding)
         (distance : embedding -> embedding -> num)
         (num_leb : num -> num -> bool)
         (db : Memory.NeonVectorDB embedding) (query : string)
         (memory_type ticker : option string) (limit : Z),
    (forall x y, num_leb x y = true \/ num_leb y x = true) ->
    exists rows,
      Memory.semantic_search_memories num one_minus embedding get_embedding
        distance num_leb db query memory_type ticker limit
      = Memory.row_dict num one_minus embedding distance (get_embedding query)
          <$> rows
      /\ Sorted (fun a b =>
                   num_leb
                     (distance (Memory.row_embedding embedding a)
                               (get_embedding query))
                     (distance (Memory.row_embedding embedding b)
                               (get_embedding query)) = true)
                rows.
Proof.
  intros num one_minus embedding get_embedding distance num_leb db query
    memory_type ticker limit Htotal.
  unfold Memory.semantic_search_memories.
  destruct (Memory.db_reachable embedding db); simpl;
    [|exists []; split; [done|constructor]].
  destruct (Memory.db_vector_codec embedding db); simpl;
    [|exists []; split; [done|constructor]].
  case_decide as Hfit; [exists []; split; [done|constructor]|].
  case_decide as Hneg; [exists []; split; [done|constructor]|].
  eexists. split; [reflexivity|].
  by apply Sorted_take, order_by_distance_sorted.
Qed.

Lemma semantic_search_memories_sorted_witness :
  exists rows,
    Memory.semantic_search_memories Z (fun x => 1 - x)%Z Z (fun _ => 0%Z)
      sample_distance Z.leb sample_db "rates" (Some "bull_memory")
      (Some "NVDA") 5
    = Memory.row_dict Z (fun x => 1 - x)%Z Z sample_distance 0%Z <$> rows
    /\ Sorted (fun a b =>
                 (sample_distance (Memory.row_embedding Z a) 0
                  <=? sample_distance (Memory.row_embedding Z b) 0)%Z = true)
              rows.
Proof.
  apply (semantic_search_memories_sorted Z (fun x => 1 - x)%Z Z (fun _ => 0%Z)
           sample_distance Z.leb sample_db "rates" (Some "bull_memory")
           (Some "NVDA") 5).
  intros x y. destruct (Z.leb_spec x y); [by left|].
  right. apply Z.leb_le. lia.
Defined.

Lemma mapM_first_raise {A B : Type} (f : A -> result B) (l1 l2 : list A)
    (x : A) (e : exn) :
  Forall (fun y => is_ok (f y)) l1 -> f x = Raise e ->
  Memory.mapM f (l1 ++ x :: l2) = Raise e.
Proof.
  intros Hok Hx. induction Hok as [|y l1 [b Hb] _ IH]; simpl.
  - by rewrite Hx.
  - rewrite Hb. simpl. by rewrite IH.
Qed.

(** X14: when the collection answers a query, the first match without a
    usable recommendation decides what [get_memories] raises instead of
    returning the other matches: [TypeError] when the metadata of that
    match is [None], [KeyError('recommendation')] when its metadata has no
    such entry. *)
Theorem get_memories_first_bad_match :
  forall (num : Type) (one_minus : num -> num) (embedding : Type)
         (get_embedding : string -> embedding)
         (collection_query : embedding -> Z -> result (list (Memory.hit num)))
         (self : Memory.EnhancedFinancialMemory embedding)
         (current_situation : string) (n_matches : Z)
         (before after : list (Memory.hit num)) (h : Memory.hit num),
    collection_query (get_embedding current_situation) n_matches
    = Ok (before ++ h :: after) ->
    Forall (fun h' => exists metadata,
                        Memory.hit_metadata num h' = Some metadata
                        /\ is_Some (dict_get "recommendation" metadata))
           before ->
    match Memory.hit_metadata num h with
    | None => True
    | Some metadata => dict_get "recommendation" metadata = None
    end ->
    Memory.get_memories num one_minus embedding get_embedding collection_query
      self current_situation n_matches
    = Raise (match Memory.hit_metadata num h with
             | None => TypeError "'NoneType' object is not subscriptable"
             | Some _ => KeyError "recommendation"
             end).
Proof.
  intros num one_minus embedding get_embedding collection_query self
    current_situation n_matches before after h Hq Hbefore Hbad.
  unfold Memory.get_memories. rewrite Hq. simpl. apply mapM_first_raise.
  - eapply Forall_impl; [exact Hbefore|].
    intros h' (metadata & -> & [recommendation Hrec]). simpl.
    unfold dict_item. rewrite Hrec. simpl. by eexists.
  - destruct (Memory.hit_metadata num h) as [metadata|]; simpl; [|done].
    unfold dict_item. by rewrite Hbad.
Qed.

Lemma get_memories_first_bad_match_witness :
  Memory.get_memories Z (fun x => 1 - x)%Z Z (fun _ => 0%Z)
    bare_collection_query (Memory.Mem Z "bull_memory" false None)
    "rates rising" 2
  = Raise (TypeError "'NoneType' object is not subscriptable")
  /\ Memory.get_memories Z (fun x => 1 - x)%Z Z (fun _ => 0%Z)
       foreign_collection_query (Memory.Mem Z "bull_memory" false None)
       "rates rising" 2
     = Raise (KeyError "recommendation").
Proof.
  split.
  - apply (get_memories_first_bad_match Z (fun x => 1 - x)%Z Z (fun _ => 0%Z)
             bare_collection_query (Memory.Mem Z "bull_memory" false None)
             "rates rising" 2
             [Memory.Hit Z "rates rising"
                (Some [("recommendation", "reduce exposure")]) 0%Z]
             [] (Memory.Hit Z "earnings beat" None 3%Z)).
    + reflexivity.
    + constructor; [|constructor]. eexists. split; [reflexivity|]. by eexists.
    + exact I.
  - apply (get_memories_first_bad_match Z (fun x => 1 - x)%Z Z (fun _ => 0%Z)
             foreign_collection_query (Memory.Mem Z "bull_memory" false None)
             "rates rising" 2 []
             [Memory.Hit Z "earnings beat" None 3%Z]
             (Memory.Hit Z "rates rising" (Some [("source", "newswire")]) 0%Z)).
    + reflexivity.
    + constructor.
    + reflexivity.
Defined.

(** X15: when the vector database is switched off or not connected, what
    [get_relevant_memories] returns is built from the matches of the
    ChromaDB collection for the embedded context and [limit], one record
    per match and in the order of the matches: the document as
    [matched_situation], the [recommendation] of the metadata, and
    [1 - distance] as [similarity_score]. *)
Theorem fallback_records :
  forall (num : Type) (one_minus : num -> num) (embedding : Type)
         (get_embedding : string -> embedding)
         (distance : embedding -> embedding -> num)
         (num_leb : num -> num -> bool)
         (collection_query : embedding -> Z -> result (list (Memory.hit num)))
         (self : Memory.EnhancedFinancialMemory embedding)
         (context : string) (ticker : option string) (limit : Z)
         (l : list (list (string * Memory.pyval num))),
    Memory.use_vector_db embedding self = false
    \/ Memory.vector_db embedding self = None ->
    Memory.get_relevant_memories num one_minus embedding get_embedding distance
      num_leb collection_query self context ticker limit = Ok l ->
    exists hits,
      collection_query (get_embedding context) limit = Ok hits
      /\ Forall2 (fun h r =>
                    exists metadata recommendation,
                      Memory.hit_metadata num h = Some metadata
                      /\ dict_get "recommendation" metadata
                         = Some recommendation
                      /\ r = [("matched_situation",
                               Memory.VStr num (Memory.hit_document num h));
                              ("recommendation",
                               Memory.VStr num recommendation);
                              ("similarity_score",
                               Memory.VNum num
                                 (one_minus (Memory.hit_distance num h)))])
                 hits l.
Proof.
  intros num one_minus embedding get_embedding distance num_leb
    collection_query self context ticker limit l Hpath H.
  assert (Hg : Memory.get_memories num one_minus embedding get_embedding
                 collection_query self context limit = Ok l).
  { unfold Memory.get_relevant_memories in H.
    destruct Hpath as [Hp|Hp]; rewrite Hp in H; [done|].
    by destruct (Memory.use_vector_db embedding self). }
  by apply get_memories_records in Hg.
Qed.

Lemma fallback_records_witness :
  exists hits,
    sample_collection_query 0 2 = Ok hits
    /\ Forall2 (fun h r =>
                  exists metadata recommendation,
                    Memory.hit_metadata Z h = Some metadata
                    /\ dict_get "recommendation" metadata = Some recommendation
                    /\ r = [("matched_situation",
                             Memory.VStr Z (Memory.hit_document Z h));
                            ("recommendation", Memory.VStr Z recommendation);
                            ("similarity_score",
                             Memory.VNum Z (1 - Memory.hit_distance Z h)%Z)])
               hits
               [[("matched_situation", Memory.VStr Z "rates rising");
                 ("recommendation", Memory.VStr Z "reduce exposure");
                 ("similarity_score", Memory.VNum Z 1%Z)];
                [("matched_situation", Memory.VStr Z "earnings beat");
                 ("recommendation", Memory.VStr Z "add to position");
                 ("similarity_score", Memory.VNum Z (-2)%Z)]].
Proof.
  apply (fallback_records Z (fun x => 1 - x)%Z Z (fun _ => 0%Z) sample_distance
           Z.leb sample_collection_query
           (Memory.Mem Z "bull_memory" false None) "rates rising" None 2).
  - left. reflexivity.
  - reflexivity.
Defined.

(** * The tool nodes of an accepted selection *)

Lemma add_analyst_nodes_tools d items g g' :
  add_analyst_nodes d items g = Ok g' ->
  Forall (fun k => exists tool_node,
                     dict_get k (tool_nodes d) = Some tool_node
                     /\ is_none tool_node = false)
         (dict_keys items).
Proof.
  revert g. induction items as [|[k node] items IH]; intros g H; simpl in H.
  - constructor.
  - bind_inv H as g1 H1. bind_inv H as dn Hdn. bind_inv H as g2 H2.
    bind_inv H as tn Htn. bind_inv H as g3 H3.
    unfold dict_keys. csimpl. constructor; [|by apply (IH g3)].
    exists tn. split.
    + unfold dict_item in Htn.
      destruct (dict_get k (tool_nodes d)); [congruence | discriminate].
    + by apply add_node_ok_action in H3 as [_ ?].
Qed.

(** X16: [setup_graph] returns a graph only if [self.tool_nodes] has an
    entry for every selected analyst: [tool_nodes[key]] is taken with
    [.get], and the builder turns down the [None] of a missing entry. *)
Theorem accepted_selection_has_tool_nodes :
  forall mods reg self sel g,
    setup_graph mods reg self sel = Ok g ->
    tool_nodes_for self sel.
Proof.
  intros mods reg self sel g Hacc.
  pose proof (setup_graph_shape _ _ _ _ _ Hacc) as (_ & Hnd & Hreg & _).
  unfold setup_graph in Hacc.
  case_decide as Hlen; [discriminate|]. cbv zeta in Hacc.
  bind_inv Hacc as df Hdf. bind_inv Hacc as d Hd.
  do 16 (let x := fresh "x" in let Hx := fresh "Hx" in bind_inv Hacc as x Hx).
  bind_inv Hacc as w0 H0. clear Hacc.
  destruct (create_analyst_nodes_handlers _ _ _ _ _ _ _ Hd)
    as (_ & _ & Htool_d); [by constructor..|].
  apply create_analyst_nodes_keys in Hd as (_ & _ & Hkeys); [|done..].
  simpl in Hkeys. unfold keys_after in Hkeys.
  rewrite (filter_registered_all _ _ Hreg) in Hkeys.
  rewrite foldl_set_add_fresh in Hkeys;
    [|done|intros ? _; apply not_elem_of_nil].
  simpl in Hkeys. apply add_analyst_nodes_tools in H0. rewrite Hkeys in H0.
  unfold tool_nodes_for. eapply Forall_impl; [exact H0|].
  intros k (tool_node & Hget & Hsome). simpl.
  apply dict_get_elem_of in Hget. rewrite Forall_forall in Htool_d.
  apply Htool_d in Hget. simpl in Hget. subst tool_node.
  destruct (self_tool_nodes self !! k); [by eexists | discriminate].
Qed.

Lemma accepted_selection_has_tool_nodes_witness :
  tool_nodes_for (sample_setup default_logic) ["market"; "news"].
Proof.
  apply (accepted_selection_has_tool_nodes repo_modules sample_registry
           (sample_setup default_logic) ["market"; "news"] market_news_graph).
  exact sample_builds.
Defined.
